(** * youtube-summary: the resilient AI-request orchestrator of [main.py]

    A shallow embedding of the core of [main.py]: the API key pool and its
    cursor, [extract_video_id], [get_youtube_transcript], the two prompt
    builders [summarize_transcript] and [summarize_transcript_advanced],
    [create_gemini_model] and the retry loop [generate_summary_with_retry].

    Conventions.
    - A Python [str] is a [string]; one element stands for one character.
      The non-ASCII characters of two prompt templates appear UTF-8 encoded;
      nothing below depends on their length.
    - A Python [int] is a [Z].
    - [None] is the [None] of an [option].
    - The external services (the completion service, the transcript source,
      the process environment) are fields of a record [world]; the module
      globals that change ([current_api_key_index]) and the observable
      effects (service invocations, [time.sleep], [print]) are threaded
      through a record [state].
    - The routes are in the module [Route]. A field of a request is a string
      or another JSON value; of the latter the record [Route.other] keeps
      what the code observes: its truth value, its [str], and the exceptions
      it raises as a dict key or as a URL. *)

From Stdlib Require Import ZArith List String Ascii Bool Lia.
From Stdlib Require Import Numbers.DecimalString.
Import ListNotations.

Open Scope string_scope.
Open Scope Z_scope.

(** ** Python built-ins used by the program *)

Module Py.

(** [len(s)] *)
Definition len (s : string) : Z := Z.of_nat (String.length s).

(** [len(l)] on a list *)
Definition llen {A} (l : list A) : Z := Z.of_nat (List.length l).

(** truthiness of a [str]: [bool(s)] *)
Definition truthy (s : string) : bool :=
  match s with EmptyString => false | String _ _ => true end.

(** truthiness of a value that is a [str] or [None] *)
Definition truthy_opt (s : option string) : bool :=
  match s with None => false | Some s => truthy s end.

(** one character of [str.lower()]: the letters A..Z move to a..z *)
Definition lower_ascii (c : ascii) : ascii :=
  let n := nat_of_ascii c in
  if ((65 <=? n) && (n <=? 90))%nat then ascii_of_nat (n + 32) else c.

(** [s.lower()] *)
Fixpoint lower (s : string) : string :=
  match s with
  | EmptyString => EmptyString
  | String c s' => String (lower_ascii c) (lower s')
  end.

(** [sub in s] *)
Fixpoint contains (sub s : string) : bool :=
  prefix sub s ||
  match s with
  | EmptyString => false
  | String _ s' => contains sub s'
  end.

(** [s[:n]] for [0 <= n] *)
Fixpoint take (n : nat) (s : string) : string :=
  match n, s with
  | S k, String c s' => String c (take k s')
  | _, _ => EmptyString
  end.

Fixpoint drop (n : nat) (s : string) : string :=
  match n, s with
  | S k, String _ s' => drop k s'
  | _, _ => s
  end.

Definition slice_to (n : Z) (s : string) : string := take (Z.to_nat n) s.

(** [s.endswith(suf)] *)
Definition endswith (s suf : string) : bool :=
  (drop (String.length s - String.length suf) s =? suf)%string.

(** [c] joins the first piece of a split. *)
Definition cons_head (c : ascii) (l : list string) : list string :=
  match l with
  | [] => [String c EmptyString]
  | h :: t => String c h :: t
  end.

(** The scan behind [s.split(sep)]: left to right, cutting at every
    occurrence of [sep] that does not overlap the previous one. [skip]
    counts the characters of a matched separator still to be passed. *)
Fixpoint split_scan (sep : string) (skip : nat) (s : string) : list string :=
  match s with
  | EmptyString => [EmptyString]
  | String c s' =>
      match skip with
      | S k => split_scan sep k s'
      | O =>
          if prefix sep s
          then EmptyString :: split_scan sep (String.length sep - 1) s'
          else cons_head c (split_scan sep 0 s')
      end
  end.

(** [s.split(sep)], for a separator that is not empty (Python raises
    [ValueError] on an empty one; the program only splits on constants). *)
Definition split (s sep : string) : list string := split_scan sep 0 s.

(** [sep] occurs at none of the first [length a] positions of [a ++ b] *)
Definition no_occurrence (sep a b : string) : Prop :=
  forall i, (i < String.length a)%nat -> prefix sep (drop i (a ++ b)) = false.

(** the string of one character *)
Definition char (c : ascii) : string := String c EmptyString.

(** what follows does not begin with [y] *)
Definition not_headed_by (y : ascii) (b : string) : Prop :=
  match b with
  | EmptyString => True
  | String d _ => d <> y
  end.

(** [l[i]]: [None] stands for [IndexError]. Negative indices count from
    the end. *)
Definition index {A} (l : list A) (i : Z) : option A :=
  if (0 <=? i) && (i <? llen l) then nth_error l (Z.to_nat i)
  else if (- llen l <=? i) && (i <? 0) then nth_error l (Z.to_nat (llen l + i))
  else None.

(** [str(n)] for an [int] *)
Definition str_of_int (n : Z) : string := NilZero.string_of_int (Z.to_int n).

(** [any(k in s for k in keywords)] *)
Definition any_in (keywords : list string) (s : string) : bool :=
  existsb (fun k => contains k s) keywords.

(** [range(lo, hi)] and [range(n)] *)
Definition range_from (lo hi : Z) : list Z :=
  map (fun k => lo + Z.of_nat k) (seq 0 (Z.to_nat (hi - lo))).

Definition range (n : Z) : list Z := range_from 0 n.

(** [d.get(k, default)] on a dict written as its list of items *)
Fixpoint dict_get (d : list (string * string)) (k default : string) : string :=
  match d with
  | [] => default
  | (k', v) :: rest => if (k' =? k)%string then v else dict_get rest k default
  end.

(** [sep.join(l)] *)
Fixpoint join (sep : string) (l : list string) : string :=
  match l with
  | [] => EmptyString
  | [x] => x
  | x :: rest => x ++ sep ++ join sep rest
  end.

End Py.

(** ** Video identifier *)

(** [extract_video_id]: [None] would be an [IndexError]; see
    [extract_video_id_total]. *)
Definition extract_video_id (video_url : string) : option string :=
  if Py.contains "v=" video_url then
    match Py.index (Py.split video_url "v=") 1 with
    | Some after => Py.index (Py.split after "&") 0
    | None => None
    end
  else Py.index (Py.split video_url "/") (-1).

(** The two URL shapes [extract_video_id] is written for: the identifier
    after [?v=], up to a [&] or the end; the identifier after the last [/]. *)
Definition query_form (url id : string) : Prop :=
  exists pre rest,
    url = pre ++ "?v=" ++ id ++ rest /\
    (rest = EmptyString \/ exists more, rest = "&" ++ more).

Definition path_form (url id : string) : Prop :=
  exists pre, url = pre ++ "/" ++ id.

(** The same shapes, free of the separators the splits cut at: no [v=]
    before the parameter, an identifier without [v=] and [&]; no [v=]
    anywhere in a path URL, an identifier without [/]. *)
Definition plain_query_form (url id : string) : Prop :=
  exists pre rest,
    url = pre ++ "?v=" ++ id ++ rest /\
    (rest = EmptyString \/ exists more, rest = "&" ++ more) /\
    Py.contains "v=" pre = false /\
    Py.contains "v=" id = false /\
    Py.contains "&" id = false.

Definition plain_path_form (url id : string) : Prop :=
  exists pre,
    url = pre ++ "/" ++ id /\
    Py.contains "v=" url = false /\
    Py.contains "/" id = false.

(** ** Configuration constants *)

Definition MAX_RETRIES : Z := 3.
Definition BASE_DELAY : Z := 1.

(** ** The world outside the module *)

(** A candidate of a response: [finish_reason] is [None] when the attribute
    is absent ([hasattr] fails), otherwise the [.name] of the reason. *)
Record candidate := { finish_reason : option string }.

(** What the program reads of a response of the completion service. *)
Record response := {
  text : string;
  candidates : list candidate
}.

(** A handle returned by [genai.GenerativeModel]: the key [genai.configure]
    received and the model name. The generation parameters and the safety
    settings are constants of the module and are not repeated here. *)
Record model_handle := {
  api_key : string;
  model_name : string
}.

(** What the [try] block gets from [model.generate_content(prompt)]: an
    exception [e] with [str(e) = msg], raised by the call or while the
    response is read, or a returned value (a response object, or [None]). *)
Inductive outcome :=
| Raises (msg : string)
| Returns (r : option response).

(** The result of a call to the transcript source. *)
Inductive source_result (A : Type) :=
| SourceError (msg : string)
| SourceOk (a : A).
Arguments SourceError {A} msg.
Arguments SourceOk {A} a.

Record world := {
  (** the process environment read by [os.getenv] *)
  environ : list (string * string);
  (** [genai.configure(api_key=k)] followed by [genai.GenerativeModel(...)]:
      [Some msg] when it raises an exception with that message *)
  genai_error : string -> option string;
  (** [model.generate_content(prompt)]; the first argument is the number of
      invocations made before this one *)
  generate_content : nat -> model_handle -> string -> outcome;
  (** [YouTubeTranscriptApi.list_transcripts(video_id)]: the language codes *)
  list_transcripts : string -> source_result (list string);
  (** [YouTubeTranscriptApi.get_transcript(video_id, languages=...)]: the
      [text] of every fragment, in order *)
  get_transcript : string -> list string -> source_result (list string)
}.

(** [os.getenv(name)] *)
Fixpoint getenv (env : list (string * string)) (name : string) : option string :=
  match env with
  | [] => None
  | (k, v) :: rest => if (k =? name)%string then Some v else getenv rest name
  end.

(** ** API key management *)

Definition keep_if_set (v : option string) : list string :=
  match v with
  | Some k => if Py.truthy k then [k] else []
  | None => []
  end.

(** The module-level code that fills [API_KEYS]. *)
Definition load_api_keys (env : list (string * string)) : list string :=
  let primary := keep_if_set (getenv env "GOOGLE_API_KEY") in
  let additional :=
    flat_map (fun i => keep_if_set (getenv env ("GOOGLE_API_KEY_" ++ Py.str_of_int i)))
             (Py.range_from 2 6) in
  match primary ++ additional with
  | [] => ["your_google_api_key_here"]
  | keys => keys
  end.

Definition API_KEYS (w : world) : list string := load_api_keys (environ w).

(** Observable effects. [Generate] records a call of
    [model.generate_content]; its first field is the value the loop variable
    [attempt] has at the call. *)
Inductive event :=
| Generate (attempt : Z) (model : model_handle) (prompt : string)
| Sleep (delay : Z)
| Print (msg : string).

Record state := {
  current_api_key_index : Z;
  trace : list event
}.

Definition initial_state : state :=
  {| current_api_key_index := 0; trace := [] |}.

Definition emit (e : event) (st : state) : state :=
  {| current_api_key_index := current_api_key_index st;
     trace := trace st ++ [e] |}.

Definition set_index (i : Z) (st : state) : state :=
  {| current_api_key_index := i; trace := trace st |}.

Definition is_generate (e : event) : bool :=
  match e with Generate _ _ _ => true | _ => false end.

(** number of invocations of the completion service recorded in a trace *)
Definition invocations (t : list event) : nat :=
  List.length (filter is_generate t).

Record api_status := {
  current_key_index : Z;
  total_keys : Z;
  remaining_keys : Z
}.

Definition get_current_api_status (w : world) (st : state) : api_status :=
  {| current_key_index := current_api_key_index st + 1;
     total_keys := Py.llen (API_KEYS w);
     remaining_keys := Py.llen (API_KEYS w) - current_api_key_index st - 1 |}.

(** ** Model creation *)

(** [create_gemini_model]: [inl msg] is a raised exception with message
    [msg]. The function reads [current_api_key_index] and does not write it. *)
Definition create_gemini_model (w : world) (st : state) : string + model_handle :=
  let from_pool : string + string :=
    if current_api_key_index st <? Py.llen (API_KEYS w) then
      match Py.index (API_KEYS w) (current_api_key_index st) with
      | Some k => inr k
      | None => inl "list index out of range"
      end
    else
      inl "All API keys have been exhausted. Please add more keys or wait for quota reset." in
  let chosen : string + string :=
    match getenv (environ w) "GEMINI_API_KEY" with
    | Some k => if Py.truthy k then inr k else from_pool
    | None => from_pool
    end in
  match chosen with
  | inl e => inl e
  | inr k =>
      match genai_error w k with
      | Some msg => inl msg
      | None => inr {| api_key := k; model_name := "gemini-1.5-flash" |}
      end
  end.

(** ** Retry loop with key rotation *)

Definition rate_limit_keywords : list string := ["429"; "quota"; "rate limit"].
Definition bad_key_keywords : list string := ["400"; "api key"; "invalid"; "expired"].

Definition is_rate_limit_error (msg : string) : bool :=
  Py.any_in rate_limit_keywords (Py.lower msg).

Definition is_bad_key_error (msg : string) : bool :=
  Py.any_in bad_key_keywords (Py.lower msg).

Definition msg_safety : string := "Error: Content blocked by safety filter.".
Definition msg_no_response : string := "Error: No response generated.".
Definition msg_bad_key : string :=
  "Error: Invalid or expired API key. Please check your API key configuration.".
Definition msg_all_exhausted : string :=
  "Error: All API keys have been exhausted. Please wait for quota reset or add more API keys.".
Definition msg_multiple_attempts : string :=
  "Error: Failed to generate summary after multiple attempts.".

Definition msg_backup_remaining (remaining : Z) : string :=
  "Error: API quota exceeded. " ++ Py.str_of_int remaining
  ++ " backup keys remaining but all failed. Please try again later.".

Definition msg_empty_response (reason : string) : string :=
  "Error: Empty response. Finish Reason: " ++ reason.

Definition msg_other_error (msg : string) : string :=
  "Error during summarization: " ++ msg.

(** the line printed when the cursor moves to key number [k] of [n] *)
Definition msg_switching (k n : Z) : string :=
  "API quota exceeded. Switching to API key #" ++ Py.str_of_int k
  ++ " of " ++ Py.str_of_int n.

(** how one pass through the body of the [for] loop ends: with a [return],
    or with a [continue] that carries the handle bound to [model] *)
Inductive control :=
| Return (result : string)
| Continue (model : model_handle).

(** The part of the [try] block after [generate_content] returned a
    response object. *)
Definition classify_response (r : response) : string :=
  if Py.truthy (text r) then text r
  else
    match candidates r with
    | c :: _ =>
        match finish_reason c with
        | Some name =>
            if (name =? "SAFETY")%string then msg_safety
            else msg_empty_response name
        | None => msg_empty_response "UNKNOWN"
        end
    | [] => msg_no_response
    end.

(** The rotation step: [if current_api_key_index < len(API_KEYS) - 1] with
    its body. [Some m] is the [continue] after the handle was rebuilt; [None]
    falls through to the backoff, either because no key follows or because
    [create_gemini_model] raised (the cursor has moved by then). *)
Definition rotate_key (w : world) (st : state) : option model_handle * state :=
  if current_api_key_index st <? Py.llen (API_KEYS w) - 1 then
    let st1 := set_index (current_api_key_index st + 1) st in
    let st2 :=
      emit (Print (msg_switching (current_api_key_index st1 + 1)
                                 (Py.llen (API_KEYS w)))) st1 in
    match create_gemini_model w st2 with
    | inr m => (Some m, st2)
    | inl key_error =>
        (None, emit (Print ("Failed to switch API key: " ++ key_error)) st2)
    end
  else (None, st).

(** The backoff: what follows the rotation step in the rate-limit branch. *)
Definition backoff_or_give_up (w : world) (attempt : Z) (model : model_handle)
    (st : state) : control * state :=
  if attempt <? MAX_RETRIES - 1 then
    let delay := BASE_DELAY * 2 ^ attempt in
    let st1 :=
      emit (Print ("Rate limit hit, retrying in " ++ Py.str_of_int delay
                   ++ " seconds (attempt " ++ Py.str_of_int (attempt + 2)
                   ++ "/" ++ Py.str_of_int MAX_RETRIES ++ ")")) st in
    (Continue model, emit (Sleep delay) st1)
  else
    let remaining_keys := Py.llen (API_KEYS w) - current_api_key_index st - 1 in
    if remaining_keys >? 0 then (Return (msg_backup_remaining remaining_keys), st)
    else (Return msg_all_exhausted, st).

(** The [except Exception as e] block, with [msg = str(e)]. *)
Definition handle_exception (w : world) (attempt : Z) (model : model_handle)
    (msg : string) (st : state) : control * state :=
  if is_rate_limit_error msg then
    match rotate_key w st with
    | (Some m, st') => (Continue m, st')
    | (None, st') => backoff_or_give_up w attempt model st'
    end
  else if is_bad_key_error msg then (Return msg_bad_key, st)
  else (Return (msg_other_error msg), st).

(** [str(e)] of the [AttributeError] raised by [response.candidates] when
    [generate_content] returned [None] *)
Definition none_has_no_candidates : string :=
  "'NoneType' object has no attribute 'candidates'".

(** One pass through the body of [for attempt in range(MAX_RETRIES)]. *)
Definition attempt_body (w : world) (prompt : string) (attempt : Z)
    (model : model_handle) (st : state) : control * state :=
  let st1 := emit (Generate attempt model prompt) st in
  match generate_content w (invocations (trace st)) model prompt with
  | Returns (Some r) => (Return (classify_response r), st1)
  | Returns None => handle_exception w attempt model none_has_no_candidates st1
  | Raises msg => handle_exception w attempt model msg st1
  end.

(** The [for] loop over the remaining values of [attempt], and the
    [return] that follows it. *)
Fixpoint for_attempts (w : world) (prompt : string) (attempts : list Z)
    (model : model_handle) (st : state) : string * state :=
  match attempts with
  | [] => (msg_multiple_attempts, st)
  | attempt :: rest =>
      match attempt_body w prompt attempt model st with
      | (Return result, st') => (result, st')
      | (Continue model', st') => for_attempts w prompt rest model' st'
      end
  end.

Definition generate_summary_with_retry (w : world) (model : model_handle)
    (prompt : string) (st : state) : string * state :=
  for_attempts w prompt (Py.range MAX_RETRIES) model st.

(** ** Transcript retrieval *)

(** [get_youtube_transcript]: the transcript text, or [None]. [None] as a
    video identifier would be the [IndexError] of [extract_video_id], caught
    by the same [except]. *)
Definition get_youtube_transcript (w : world) (video_url : string)
    (language_code : option string) (st : state) : option string * state :=
  let failed (e : string) :=
    (None, emit (Print ("Error retrieving transcript for " ++ video_url
                        ++ ": " ++ e)) st) in
  let fetch (video_id : string) (languages : list string) :=
    match get_transcript w video_id languages with
    | SourceOk items => (Some (Py.join " " items), st)
    | SourceError e => failed e
    end in
  match extract_video_id video_url with
  | None => failed "list index out of range"
  | Some video_id =>
      if Py.truthy_opt language_code then
        match language_code with
        | Some code => fetch video_id [code]
        | None => (None, st)
        end
      else
        match list_transcripts w video_id with
        | SourceError e => failed e
        | SourceOk [] => (None, st)
        | SourceOk language_codes => fetch video_id language_codes
        end
  end.

(** ** Prompt construction and the two summarize entry points *)

Definition nl : string := String (ascii_of_nat 10) EmptyString.

(** the lines of a multi-line literal *)
Definition lines (l : list string) : string := Py.join nl l.

Definition msg_empty_transcript : string := "Error: Transcript is empty.".
Definition ellipsis : string := "...".

(** [if len(transcript) > max: transcript = transcript[:max] + "..."] *)
Definition truncate (max_transcript_length : Z) (transcript : string) : string :=
  if Py.len transcript >? max_transcript_length
  then Py.slice_to max_transcript_length transcript ++ ellipsis
  else transcript.

Definition four_point_outline : string :=
  lines ["Provide a clear summary covering:";
         "1. Main Topic";
         "2. Key Points (3-5 points)";
         "3. Important Details";
         "4. Conclusions"].

Definition closing_cue : string := "Summary:".

(** the f-string of [summarize_transcript] *)
Definition simple_prompt (transcript : string) : string :=
  "Summarize this YouTube video transcript in an organized format:" ++ nl ++ nl
  ++ transcript ++ nl ++ nl
  ++ four_point_outline ++ nl ++ nl
  ++ closing_cue.

Definition summarize_transcript (w : world) (transcript : option string)
    (model : model_handle) (st : state) : string * state :=
  match transcript with
  | None => (msg_empty_transcript, st)
  | Some t =>
      if negb (Py.truthy t) then (msg_empty_transcript, st)
      else generate_summary_with_retry w model (simple_prompt (truncate 8000 t)) st
  end.

Definition max_transcript_length (detail_level : string) : Z :=
  if (detail_level =? "brief")%string then 6000
  else if (detail_level =? "detailed")%string then 12000
  else 8000.

Definition style_prompts : list (string * string) :=
  [ ("default", four_point_outline);
    ("bullet-points",
     lines ["Provide a bullet-point summary with:";
            "• Main topic and overview";
            "• Key points (use bullet points throughout)";
            "• Important details (as sub-bullets)";
            "• Final conclusions"]);
    ("paragraphs",
     lines ["Provide a well-structured paragraph summary with:";
            "- Opening paragraph: Main topic and context";
            "- Body paragraphs: Key points and details (2-3 paragraphs)";
            "- Closing paragraph: Conclusions and takeaways"]);
    ("qa",
     lines ["Provide a Q&A format summary with:";
            "Q: What is the main topic of this video?";
            "A: [Answer]";
            EmptyString;
            "Q: What are the key points discussed?";
            "A: [Answer]";
            EmptyString;
            "Q: What are the most important details?";
            "A: [Answer]";
            EmptyString;
            "Q: What conclusions are drawn?";
            "A: [Answer]"]);
    ("timeline",
     lines ["Provide a timeline-style summary with:";
            "🕐 Beginning: [What starts the discussion]";
            "🕕 Early Discussion: [Initial key points]";
            "🕘 Middle: [Main content and details]";
            "🕛 End: [Conclusions and final thoughts]"]) ].

Definition detail_instructions : list (string * string) :=
  [ ("brief", "Keep it concise and focus only on the most essential information.");
    ("medium", "Provide a balanced level of detail with key information.");
    ("detailed", "Include comprehensive details, examples, and thorough explanations.") ].

Definition language_names : list (string * string) :=
  [ ("es", "Spanish"); ("fr", "French"); ("de", "German"); ("it", "Italian");
    ("pt", "Portuguese"); ("ru", "Russian"); ("ja", "Japanese"); ("ko", "Korean");
    ("zh", "Chinese"); ("ar", "Arabic"); ("hi", "Hindi") ].

Definition translation_instruction (translate_to : string) : string :=
  if negb (translate_to =? "none")%string then
    nl ++ nl ++ "IMPORTANT: Translate the entire summary to "
    ++ Py.dict_get language_names translate_to translate_to ++ "."
  else EmptyString.

(** the f-string of [summarize_transcript_advanced]; [transcript] is the
    text after truncation *)
Definition advanced_prompt (transcript summary_style detail_level translate_to : string)
    : string :=
  let style_instruction :=
    Py.dict_get style_prompts summary_style
                (Py.dict_get style_prompts "default" EmptyString) in
  let detail_instruction :=
    Py.dict_get detail_instructions detail_level
                (Py.dict_get detail_instructions "medium" EmptyString) in
  "Summarize this YouTube video transcript in the requested format:" ++ nl ++ nl
  ++ transcript ++ nl ++ nl
  ++ style_instruction ++ nl ++ nl
  ++ "Instructions: " ++ detail_instruction ++ translation_instruction translate_to
  ++ nl ++ nl
  ++ closing_cue.

Definition summarize_transcript_advanced (w : world) (transcript : option string)
    (model : model_handle) (summary_style detail_level translate_to : string)
    (st : state) : string * state :=
  match transcript with
  | None => (msg_empty_transcript, st)
  | Some t =>
      if negb (Py.truthy t) then (msg_empty_transcript, st)
      else
        let t' := truncate (max_transcript_length detail_level) t in
        generate_summary_with_retry w model
          (advanced_prompt t' summary_style detail_level translate_to) st
  end.

(** ** Request handlers *)

Module Route.

(** the values the routes put into their JSON answers *)
#[warnings="-register-all"]
Inductive json :=
| JNull
| JInt (n : Z)
| JStr (s : string)
| JList (items : list json)
| JObj (fields : list (string * json)).

(** what a route returns: the body given to [jsonify] and the status code *)
Record http_response := {
  body : json;
  status : Z
}.

(** [return jsonify(fields)] *)
Definition jsonify (fields : list (string * json)) : http_response :=
  {| body := JObj fields; status := 200 |}.

(** [return jsonify({'error': msg}), code] *)
Definition json_error (msg : string) (code : Z) : http_response :=
  {| body := JObj [("error", JStr msg)]; status := code |}.

(** What the routes observe of a field of the request that is not a string
    (null, a boolean, a number, a list, an object): [bool(x)]; [str(x)], as
    an f-string prints it; [str(e)] of the [TypeError] that a dict lookup
    with [x] as the key raises, [None] when [x] is hashable; [str(e)] of the
    exception that [extract_video_id(x)] raises (every such [x] makes it
    raise: the test ["v=" in x] does, or the [split] that follows); and what
    [YouTubeTranscriptApi.get_transcript(video_id, languages=[x])] gives for
    a video. *)
Record other := {
  truth : bool;
  shown : string;
  hash_error : option string;
  url_error : string;
  language_answer : string -> source_result (list string)
}.

(** a field of the request: a string, or another JSON value *)
Inductive value :=
| Str (s : string)
| Other (o : other).

(** The dict [data] that [request.get_json()] returns for a body that is a
    JSON object, as its list of items. *)
Definition request : Type := list (string * value).

(** [data.get(k)] *)
Fixpoint field (data : request) (k : string) : option value :=
  match data with
  | [] => None
  | (k', v) :: rest => if (k' =? k)%string then Some v else field rest k
  end.

(** [data.get(k, default)] *)
Definition field_or (data : request) (k default : string) : value :=
  match field data k with
  | Some v => v
  | None => Str default
  end.

(** [bool(v)] *)
Definition truthy (v : value) : bool :=
  match v with
  | Str s => Py.truthy s
  | Other o => truth o
  end.

(** [str(v)], the text an f-string puts for [{v}] *)
Definition text (v : value) : string :=
  match v with
  | Str s => s
  | Other o => shown o
  end.

(** a field that passes the test [if not x: return ...]: present and true *)
Definition required (data : request) (k : string) : option value :=
  match field data k with
  | Some v => if truthy v then Some v else None
  | None => None
  end.

(** the route [/api-status] *)
Definition api_status (w : world) (st : state) : http_response :=
  let s := get_current_api_status w st in
  jsonify [ ("current_key_index", JInt (current_key_index s));
            ("total_keys", JInt (total_keys s));
            ("remaining_keys", JInt (remaining_keys s)) ].

(** [get_youtube_transcript] as the route calls it, with the fields of the
    request as they come. On strings it is the function above. *)
Definition get_youtube_transcript (w : world) (video_url : value)
    (language_code : option value) (st : state) : option string * state :=
  let failed (e : string) :=
    (None, emit (Print ("Error retrieving transcript for " ++ text video_url
                        ++ ": " ++ e)) st) in
  match video_url with
  | Other o => failed (url_error o)
  | Str url =>
      match language_code with
      | None => get_youtube_transcript w url None st
      | Some (Str code) => get_youtube_transcript w url (Some code) st
      | Some (Other o) =>
          if truth o then
            match extract_video_id url with
            | None => failed "list index out of range"
            | Some video_id =>
                match language_answer o video_id with
                | SourceOk items => (Some (Py.join " " items), st)
                | SourceError e => failed e
                end
            end
          else get_youtube_transcript w url None st
      end
  end.

(** [table.get(v, default)]: [inl e] is the [TypeError] of a key that
    cannot be hashed *)
Definition lookup (table : list (string * string)) (v : value) (default : string)
    : string + string :=
  match v with
  | Str s => inr (Py.dict_get table s default)
  | Other o =>
      match hash_error o with
      | Some e => inl e
      | None => inr default
      end
  end.

(** the budget the comparisons of [detail_level] with 'brief' and
    'detailed' select *)
Definition budget (detail_level : value) : Z :=
  match detail_level with
  | Str s => max_transcript_length s
  | Other _ => 8000
  end.

(** the translation instruction; a value that is no string differs from
    'none' and, when the table lookup does not raise, is named by [str] *)
Definition translation (translate_to : value) : string + string :=
  match translate_to with
  | Str s => inr (translation_instruction s)
  | Other o =>
      match hash_error o with
      | Some e => inl e
      | None =>
          inr (nl ++ nl ++ "IMPORTANT: Translate the entire summary to "
               ++ shown o ++ ".")
      end
  end.

(** the f-string of [summarize_transcript_advanced], given its parts *)
Definition prompt (transcript style_instruction detail_instruction
                   translation_instruction : string) : string :=
  "Summarize this YouTube video transcript in the requested format:" ++ nl ++ nl
  ++ transcript ++ nl ++ nl
  ++ style_instruction ++ nl ++ nl
  ++ "Instructions: " ++ detail_instruction ++ translation_instruction
  ++ nl ++ nl
  ++ closing_cue.

(** [summarize_transcript_advanced] as the route calls it, with the option
    fields of the request as they come: [inl e] is the exception a table
    lookup raises. On strings it is the function above. *)
Definition summarize_transcript_advanced (w : world) (transcript : option string)
    (model : model_handle) (summary_style detail_level translate_to : value)
    (st : state) : string + (string * state) :=
  match transcript with
  | None => inr (msg_empty_transcript, st)
  | Some t =>
      if negb (Py.truthy t) then inr (msg_empty_transcript, st)
      else
        let t' := truncate (budget detail_level) t in
        match lookup style_prompts summary_style
                     (Py.dict_get style_prompts "default" EmptyString) with
        | inl e => inl e
        | inr style_instruction =>
            match lookup detail_instructions detail_level
                         (Py.dict_get detail_instructions "medium" EmptyString) with
            | inl e => inl e
            | inr detail_instruction =>
                match translation translate_to with
                | inl e => inl e
                | inr translation_instruction =>
                    inr (generate_summary_with_retry w model
                           (prompt t' style_instruction detail_instruction
                                   translation_instruction) st)
                end
            end
        end
  end.

(** the route [/summarize] *)
Definition summarize (w : world) (data : request) (st : state)
    : http_response * state :=
  let language_code := field data "language_code" in
  let summary_style := field_or data "summary_style" "default" in
  let detail_level := field_or data "detail_level" "medium" in
  let translate_to := field_or data "translate_to" "none" in
  match required data "video_url" with
  | None => (json_error "video_url is required" 400, st)
  | Some video_url =>
      let (transcript, st1) := get_youtube_transcript w video_url language_code st in
      if negb (Py.truthy_opt transcript) then
        (json_error "Could not retrieve transcript for the given URL" 400, st1)
      else
        let failed (e : string) :=
          (json_error ("Failed to generate summary: " ++ e) 500,
           emit (Print ("Error in summarize endpoint: " ++ e)) st1) in
        match create_gemini_model w st1 with
        | inl e => failed e
        | inr model =>
            match summarize_transcript_advanced w transcript model
                    summary_style detail_level translate_to st1 with
            | inl e => failed e
            | inr (summary, st2) => (jsonify [("summary", JStr summary)], st2)
            end
        end
  end.

(** the f-string of [ask_question]; its lines carry the indentation of the
    source *)
Definition question_prompt (summary question : string) : string :=
  lines [ EmptyString;
          "        Based on the following video summary, please answer the user's question accurately and helpfully.";
          "        ";
          "        Video Summary:";
          "        " ++ summary;
          "        ";
          "        User Question: " ++ question;
          "        ";
          "        Please provide a clear, informative answer based solely on the information available in the summary. ";
          "        If the summary doesn't contain enough information to answer the question, please say so and suggest what additional information might be needed.";
          "        ";
          "        Answer:";
          "        " ].

(** the route [/ask-question]; the field [video_url] is read and not used *)
Definition ask_question (w : world) (data : request) (st : state)
    : http_response * state :=
  match required data "question" with
  | None => (json_error "question is required" 400, st)
  | Some question =>
      match required data "summary" with
      | None => (json_error "summary is required" 400, st)
      | Some summary =>
          match create_gemini_model w st with
          | inl e =>
              (json_error ("Failed to generate answer: " ++ e) 500,
               emit (Print ("Error in ask-question endpoint: " ++ e)) st)
          | inr model =>
              let (answer, st') :=
                generate_summary_with_retry w model
                  (question_prompt (text summary) (text question)) st in
              (jsonify [("answer", JStr answer)], st')
          end
      end
  end.

(** What [video_details] reads beyond the [world]: the transcript list
    object ([bool(obj)] and the display name [t.language] of a language
    code), and the inner [try] block that asks the YouTube Data API for the
    identifier (the URL carries the identifier and the key of the module)
    and reads duration and title: an exception, no item, or both values. *)
Record catalog := {
  transcript_list_truthy : string -> bool;
  language_name : string -> string -> string;
  video_lookup : string -> source_result (option (Z * string))
}.

(** the route [/video-details] *)
Definition video_details (w : world) (c : catalog) (data : request) (st : state)
    : http_response * state :=
  let failed (e : string) :=
    (json_error ("Failed to retrieve video details: " ++ e) 500,
     emit (Print ("Error in video-details endpoint: " ++ e)) st) in
  match required data "video_url" with
  | None => (json_error "video_url is required" 400, st)
  | Some (Other o) => failed (url_error o)
  | Some (Str video_url) =>
      match extract_video_id video_url with
      | None => failed "list index out of range"
      | Some video_id =>
          if negb (Py.truthy video_id) || negb (Py.len video_id =? 11) then
            (json_error "Invalid YouTube video URL" 400, st)
          else
            match list_transcripts w video_id with
            | SourceError e => failed e
            | SourceOk codes =>
                if negb (transcript_list_truthy c video_id) then
                  (json_error "No transcripts available for this video" 404, st)
                else
                  let languages :=
                    map (fun code =>
                           JObj [("code", JStr code);
                                 ("name", JStr (language_name c video_id code))])
                        codes in
                  let answer (title : string) (duration : json) :=
                    jsonify [("title", JStr title);
                             ("languages", JList languages);
                             ("duration", duration)] in
                  match video_lookup c video_id with
                  | SourceError e =>
                      (answer "Video Summary" JNull,
                       emit (Print ("Error fetching video duration: " ++ e)) st)
                  | SourceOk None => (answer "Video Summary" JNull, st)
                  | SourceOk (Some (duration, title)) =>
                      (answer title (JInt duration), st)
                  end
            end
      end
  end.

End Route.

(** ** Vocabulary of the properties *)

(** the delays of the [time.sleep] calls recorded in a trace *)
Definition sleeps (t : list event) : list Z :=
  flat_map (fun e => match e with Sleep d => [d] | _ => [] end) t.

(** The operations of the module that receive the state: one pass of the
    retry loop, and the transcript retrieval. [generate_summary_with_retry]
    and the summarize entry points are sequences of passes. *)
Inductive op_step (w : world) : state -> state -> Prop :=
| step_attempt (prompt : string) (attempt : Z) (model : model_handle) (st : state) :
    op_step w st (snd (attempt_body w prompt attempt model st))
| step_transcript (video_url : string) (language_code : option string) (st : state) :
    op_step w st (snd (get_youtube_transcript w video_url language_code st)).

(** the states the process can be in, from the start of the module on *)
Inductive reachable (w : world) : state -> Prop :=
| reach_initial : reachable w initial_state
| reach_step (st st' : state) :
    reachable w st -> op_step w st st' -> reachable w st'.



(** A prompt of the four-point outline for the transcript segment [seg]:
    some preamble, the segment, the outline (Main Topic, Key Points,
    Important Details, Conclusions), possibly more instructions, and the
    closing cue at the very end. *)
Definition four_point_outline_prompt (prompt seg : string) : Prop :=
  exists preamble instructions,
    prompt = preamble ++ nl ++ nl ++ seg ++ nl ++ nl ++ four_point_outline
             ++ instructions ++ closing_cue.

(** every call of the completion service raises a rate-limit error *)
Definition always_rate_limits (w : world) : Prop :=
  forall k m p, exists msg,
    generate_content w k m p = Raises msg /\ is_rate_limit_error msg = true.

(** [genai.configure] and [genai.GenerativeModel] never raise *)
Definition genai_never_fails (w : world) : Prop :=
  forall k, genai_error w k = None.

(** The pass that starts in [st] with the handle [model] goes through the
    rotation step: its call raises a rate-limit error while a key follows
    the cursor. *)
Definition rotates (w : world) (prompt : string) (model : model_handle)
    (st : state) : bool :=
  match generate_content w (invocations (trace st)) model prompt with
  | Raises msg =>
      is_rate_limit_error msg
      && (current_api_key_index st <? Py.llen (API_KEYS w) - 1)
  | Returns _ => false
  end.

(** the number of passes of a run of the loop that go through the rotation
    step *)
Fixpoint rotations (w : world) (prompt : string) (attempts : list Z)
    (model : model_handle) (st : state) : Z :=
  match attempts with
  | [] => 0
  | attempt :: rest =>
      (if rotates w prompt model st then 1 else 0)
      + match attempt_body w prompt attempt model st with
        | (Continue model', st') => rotations w prompt rest model' st'
        | (Return _, _) => 0
        end
  end.

(** the cursor points at a key of the list *)
Definition cursor_in_range (w : world) (st : state) : Prop :=
  0 <= current_api_key_index st < Py.llen (API_KEYS w).

(** the environment variables the key list is read from, in order *)
Definition key_variables : list string :=
  ["GOOGLE_API_KEY"; "GOOGLE_API_KEY_2"; "GOOGLE_API_KEY_3";
   "GOOGLE_API_KEY_4"; "GOOGLE_API_KEY_5"].

(** [s] is [l] with some elements left out *)
Inductive subsequence : list Z -> list Z -> Prop :=
| sub_nil (l : list Z) : subsequence [] l
| sub_skip (s l : list Z) (y : Z) : subsequence s l -> subsequence s (y :: l)
| sub_take (s l : list Z) (x : Z) : subsequence s l -> subsequence (x :: s) (x :: l).

(** the delay the loop sleeps at [attempt] when it backs off there *)
Definition backoff_schedule (attempts : list Z) : list Z :=
  flat_map (fun a => if a <? MAX_RETRIES - 1 then [BASE_DELAY * 2 ^ a] else [])
           attempts.

(** the handles the recorded calls were made with *)
Definition models_used (t : list event) : list model_handle :=
  flat_map (fun e => match e with Generate _ m _ => [m] | _ => [] end) t.

(** the prompts the recorded calls were made with *)
Definition prompts_sent (t : list event) : list string :=
  flat_map (fun e => match e with Generate _ _ p => [p] | _ => [] end) t.

(** a message the loop words itself *)
Definition worded_as_error (result : string) : Prop :=
  prefix "Error: " result = true \/
  prefix "Error during summarization: " result = true.

(** ** Scenarios: concrete worlds used to run the definitions *)

Module Scenario.

(** an environment that configures the first [n] of five keys *)
Definition five_keys : list (string * string) :=
  [ ("GOOGLE_API_KEY", "key-1"); ("GOOGLE_API_KEY_2", "key-2");
    ("GOOGLE_API_KEY_3", "key-3"); ("GOOGLE_API_KEY_4", "key-4");
    ("GOOGLE_API_KEY_5", "key-5") ].

Definition env_with_keys (n : nat) : list (string * string) := firstn n five_keys.

Definition quota_message : string :=
  "429 Resource has been exhausted (e.g. check quota).".

Definition no_source {A} : source_result A := SourceError "no transcript source".

(** a completion service that reports a rate-limit error on every call *)
Definition always_rate_limited (n : nat) : world :=
  {| environ := env_with_keys n;
     genai_error := fun _ => None;
     generate_content := fun _ _ _ => Raises quota_message;
     list_transcripts := fun _ => no_source;
     get_transcript := fun _ _ => no_source |}.

(** a completion service whose answers depend on the call number only *)
Definition scripted (n : nat) (script : nat -> outcome) : world :=
  {| environ := env_with_keys n;
     genai_error := fun _ => None;
     generate_content := fun k _ _ => script k;
     list_transcripts := fun _ => no_source;
     get_transcript := fun _ _ => no_source |}.

Definition invalid_key : outcome :=
  Raises "400 API key not valid. Please pass a valid API key.".

Definition safety_blocked : outcome :=
  Returns (Some {| text := EmptyString;
                   candidates := [ {| finish_reason := Some "SAFETY" |} ] |}).

Definition answer (s : string) : outcome :=
  Returns (Some {| text := s; candidates := [ {| finish_reason := Some "STOP" |} ] |}).

(** the handle the first key gives *)
Definition first_model : model_handle :=
  {| api_key := "key-1"; model_name := "gemini-1.5-flash" |}.

(** the handle the second key gives *)
Definition second_model : model_handle :=
  {| api_key := "key-2"; model_name := "gemini-1.5-flash" |}.

(** a transcript of [n] characters *)
Fixpoint filler (n : nat) : string :=
  match n with
  | O => EmptyString
  | S k => String "a" (filler k)
  end.

(** five keys and the override variable [GEMINI_API_KEY] *)
Definition with_override : world :=
  {| environ := ("GEMINI_API_KEY", "override-key") :: five_keys;
     genai_error := fun _ => None;
     generate_content := fun _ _ _ => Raises quota_message;
     list_transcripts := fun _ => no_source;
     get_transcript := fun _ _ => no_source |}.

Definition override_model : model_handle :=
  {| api_key := "override-key"; model_name := "gemini-1.5-flash" |}.

(** three keys, of which the second cannot be configured *)
Definition second_key_rejected : world :=
  {| environ := env_with_keys 3;
     genai_error := fun k => if (k =? "key-2")%string
                             then Some "configure failed" else None;
     generate_content := fun _ _ _ => Raises quota_message;
     list_transcripts := fun _ => no_source;
     get_transcript := fun _ _ => no_source |}.

(** a video with an English and a German transcript of two fragments *)
Definition with_transcripts (script : nat -> outcome) : world :=
  {| environ := env_with_keys 2;
     genai_error := fun _ => None;
     generate_content := fun k _ _ => script k;
     list_transcripts := fun _ => SourceOk ["en"; "de"];
     get_transcript := fun _ langs =>
       match langs with
       | "fr" :: _ => SourceError "no French transcript"
       | _ => SourceOk ["hello"; "world"]
       end |}.


(** JSON null as a field of a request: false, hashable *)
Definition a_null : Route.other :=
  {| Route.truth := false;
     Route.shown := "None";
     Route.hash_error := None;
     Route.url_error := "argument of type 'NoneType' is not iterable";
     Route.language_answer := fun _ => no_source |}.

Definition plain_catalog : Route.catalog :=
  {| Route.transcript_list_truthy := fun _ => true;
     Route.language_name := fun _ code => code;
     Route.video_lookup := fun _ => SourceError "connection refused" |}.

End Scenario.

(** * Properties *)

(** ** The definitions at work *)

Example split_plain : Py.split "a,b,,c" "," = ["a"; "b"; EmptyString; "c"].
Proof. reflexivity. Qed.

Example split_does_not_overlap :
  Py.split "aaaa" "aa" = [EmptyString; EmptyString; EmptyString].
Proof. reflexivity. Qed.

Example split_without_separator : Py.split "abc" "v=" = ["abc"].
Proof. reflexivity. Qed.

Example lower_mixed : Py.lower "Rate Limit 429" = "rate limit 429".
Proof. reflexivity. Qed.

Example index_from_the_end : Py.index ["a"; "b"; "c"] (-1) = Some "c".
Proof. reflexivity. Qed.

Example extract_watch_url :
  extract_video_id "https://www.youtube.com/watch?v=dQw4w9WgXcQ&t=42s"
  = Some "dQw4w9WgXcQ".
Proof. reflexivity. Qed.

Example extract_short_url :
  extract_video_id "https://youtu.be/dQw4w9WgXcQ" = Some "dQw4w9WgXcQ".
Proof. reflexivity. Qed.

Example no_key_configured :
  load_api_keys [] = ["your_google_api_key_here"].
Proof. reflexivity. Qed.

Example empty_values_are_skipped :
  load_api_keys [("GOOGLE_API_KEY", "k1"); ("GOOGLE_API_KEY_2", EmptyString);
                 ("GOOGLE_API_KEY_4", "k4")] = ["k1"; "k4"].
Proof. reflexivity. Qed.

Example rate_limit_is_matched_in_any_case :
  is_rate_limit_error "Quota exceeded for metric" = true /\
  is_rate_limit_error "RATE LIMIT" = true /\
  is_rate_limit_error "400 API key not valid" = false /\
  is_bad_key_error "400 API key not valid" = true.
Proof. repeat split. Qed.

(** one key, always 429: two backoffs of 1 and 2, then the exhausted message *)
Example single_key_run :
  let out := generate_summary_with_retry (Scenario.always_rate_limited 1)
               Scenario.first_model "p" initial_state in
  fst out = msg_all_exhausted /\
  sleeps (trace (snd out)) = [1; 2] /\
  invocations (trace (snd out)) = 3%nat /\
  current_api_key_index (snd out) = 0.
Proof. repeat split. Qed.

(** three keys, always 429: two rotations, then the exhausted message *)
Example three_keys_run :
  let out := generate_summary_with_retry (Scenario.always_rate_limited 3)
               Scenario.first_model "p" initial_state in
  fst out = msg_all_exhausted /\
  sleeps (trace (snd out)) = [] /\
  current_api_key_index (snd out) = 2.
Proof. repeat split. Qed.

(** a rate limit on the first key, an answer on the second *)
Example rotation_then_answer :
  let W := Scenario.scripted 2 (fun k => match k with
                                         | O => Raises Scenario.quota_message
                                         | _ => Scenario.answer "a summary"
                                         end) in
  generate_summary_with_retry W Scenario.first_model "p" initial_state
  = ("a summary",
     {| current_api_key_index := 1;
        trace := [Generate 0 Scenario.first_model "p";
                  Print "API quota exceeded. Switching to API key #2 of 2";
                  Generate 1 Scenario.second_model "p"] |}).
Proof. reflexivity. Qed.

Example translation_is_named :
  Py.contains "Translate the entire summary to Spanish."
    (advanced_prompt "hello world" "default" "medium" "es") = true /\
  Py.contains "hello world" (advanced_prompt "hello world" "default" "medium" "es") = true /\
  Py.endswith (advanced_prompt "hello world" "default" "medium" "es") "Summary:" = true.
Proof. repeat split. Qed.

(** ** Facts about the Python built-ins *)

Module PyFacts.
Import Py.

Lemma append_nil_r (s : string) : s ++ EmptyString = s.
Proof. induction s as [|c s IH]; simpl; [reflexivity | now rewrite IH]. Qed.

Lemma append_assoc (a b c : string) : (a ++ b) ++ c = a ++ (b ++ c).
Proof. induction a as [|x a IH]; simpl; [reflexivity | now rewrite IH]. Qed.

Lemma length_append (a b : string) :
  String.length (a ++ b) = (String.length a + String.length b)%nat.
Proof. induction a as [|x a IH]; simpl; [reflexivity | now rewrite IH]. Qed.

Lemma len_append (a b : string) : len (a ++ b) = len a + len b.
Proof. unfold len. rewrite length_append. lia. Qed.

Lemma len_nonneg (s : string) : 0 <= len s.
Proof. unfold len. lia. Qed.

Lemma length_take (n : nat) (s : string) :
  String.length (take n s) = Nat.min n (String.length s).
Proof.
  revert s. induction n as [|n IH]; intros [|c s]; simpl; try reflexivity.
  now rewrite IH.
Qed.

Lemma prefix_take (n : nat) (s : string) : prefix (take n s) s = true.
Proof.
  revert s. induction n as [|n IH]; intros [|c s]; cbn; try reflexivity.
  destruct (ascii_dec c c); [apply IH | congruence].
Qed.

Lemma drop_append (a b : string) : drop (String.length a) (a ++ b) = b.
Proof. induction a as [|x a IH]; simpl; [now destruct b | exact IH]. Qed.

Lemma endswith_append (a suf : string) : endswith (a ++ suf) suf = true.
Proof.
  unfold endswith. rewrite length_append.
  replace (String.length a + String.length suf - String.length suf)%nat
    with (String.length a) by lia.
  rewrite drop_append. apply String.eqb_refl.
Qed.

Lemma prefix_refl_append (a b : string) : prefix a (a ++ b) = true.
Proof.
  induction a as [|x a IH]; simpl; [now destruct b|].
  destruct (ascii_dec x x); [exact IH | congruence].
Qed.

Lemma prefix_inv (a s : string) :
  prefix a s = true -> exists r, s = a ++ r.
Proof.
  revert s. induction a as [|x a IH]; intros s H.
  - now exists s.
  - destruct s as [|y s]; [discriminate|]. simpl in H.
    destruct (ascii_dec x y) as [->|]; [|discriminate].
    destruct (IH _ H) as [r ->]. now exists r.
Qed.

Lemma contains_append_l (sub a b : string) :
  contains sub (a ++ sub ++ b) = true.
Proof.
  induction a as [|x a IH].
  - cbn [append]. pose proof (prefix_refl_append sub b) as H.
    destruct (sub ++ b); cbn [contains]; now rewrite H.
  - cbn [append contains]. rewrite IH. apply orb_true_r.
Qed.

(** *** [split] *)

Lemma split_scan_nonempty (sep : string) (k : nat) (s : string) :
  split_scan sep k s <> [].
Proof.
  revert k. induction s as [|c s IH]; intros k; cbn [split_scan]; [discriminate|].
  destruct k; [|apply IH].
  destruct (prefix sep (String c s)); [discriminate|].
  specialize (IH 0%nat). destruct (split_scan sep 0 s); [contradiction|discriminate].
Qed.

Lemma split_scan_skip (sep a b : string) :
  split_scan sep (String.length a) (a ++ b) = split_scan sep 0 b.
Proof.
  induction a as [|x a IH]; simpl; [|exact IH].
  now destruct b.
Qed.

Lemma split_empty (sep : string) : split EmptyString sep = [EmptyString].
Proof. reflexivity. Qed.

(** a character that does not start an occurrence goes to the first piece *)
Lemma split_pass (sep : string) (c : ascii) (s : string) :
  prefix sep (String c s) = false ->
  split (String c s) sep = cons_head c (split s sep).
Proof. unfold split. simpl. intros H. simpl in H. now rewrite H. Qed.

(** an occurrence at the front is cut off *)
Lemma split_cut (sep rest : string) :
  sep <> EmptyString ->
  split (sep ++ rest) sep = EmptyString :: split rest sep.
Proof.
  intros Hne. destruct sep as [|c sep]; [congruence|].
  unfold split. cbn [append split_scan].
  change (String c (sep ++ rest)) with (String c sep ++ rest).
  rewrite prefix_refl_append. f_equal.
  cbn [String.length]. rewrite Nat.sub_succ, Nat.sub_0_r.
  apply split_scan_skip.
Qed.

Lemma no_occurrence_tail (sep : string) (c : ascii) (a b : string) :
  no_occurrence sep (String c a) b -> no_occurrence sep a b.
Proof.
  intros H i Hi. apply (H (S i)). simpl. lia.
Qed.

Lemma no_occurrence_head (sep : string) (c : ascii) (a b : string) :
  no_occurrence sep (String c a) b -> prefix sep (String c (a ++ b)) = false.
Proof. intros H. apply (H 0%nat). simpl. lia. Qed.

(** the pieces of [a ++ b] when [sep] does not occur before [b] starts *)
Lemma split_prepend (sep a b : string) :
  no_occurrence sep a b ->
  exists h t, split b sep = h :: t /\ split (a ++ b) sep = (a ++ h) :: t.
Proof.
  induction a as [|c a IH]; intros H.
  - simpl. destruct (split b sep) as [|h t] eqn:E.
    + now apply split_scan_nonempty in E.
    + now exists h, t.
  - destruct (IH (no_occurrence_tail _ _ _ _ H)) as (h & t & Hb & Hab).
    exists h, t. split; [exact Hb|].
    cbn [append]. rewrite split_pass by now apply no_occurrence_head.
    rewrite Hab. reflexivity.
Qed.

(** the first occurrence cuts [pre ++ sep ++ rest] after [pre] *)
Lemma split_first (sep pre rest : string) :
  sep <> EmptyString ->
  no_occurrence sep pre (sep ++ rest) ->
  split (pre ++ sep ++ rest) sep = pre :: split rest sep.
Proof.
  intros Hne H.
  destruct (split_prepend _ _ _ H) as (h & t & Hb & Hab).
  rewrite split_cut in Hb by assumption. injection Hb as <- <-.
  now rewrite Hab, append_nil_r.
Qed.

(** without an occurrence the string is the only piece *)
Lemma split_none (sep s : string) :
  contains sep s = false -> split s sep = [s].
Proof.
  induction s as [|c s IH]; intros H; [reflexivity|].
  cbn [contains] in H. apply orb_false_elim in H as [Hp Hc].
  rewrite split_pass by assumption. now rewrite IH.
Qed.

(** with an occurrence there are at least two pieces *)
Lemma split_some (sep s : string) :
  sep <> EmptyString -> contains sep s = true ->
  exists a b t, split s sep = a :: b :: t.
Proof.
  intros Hne. induction s as [|c s IH]; intros H.
  - destruct sep; [congruence | discriminate].
  - cbn [contains] in H. destruct (prefix sep (String c s)) eqn:Hp.
    + apply prefix_inv in Hp as [r ->]. rewrite split_cut by assumption.
      destruct (split r sep) as [|b t] eqn:E; [now apply split_scan_nonempty in E|].
      now exists EmptyString, b, t.
    + destruct (IH H) as (a & b & t & E).
      rewrite split_pass, E by assumption. now exists (String c a), b, t.
Qed.

(** *** separators of one and of two characters *)

Lemma split_char_append (c : ascii) (a b : string) :
  split (a ++ String c b) (char c) = (split a (char c) ++ split b (char c))%list.
Proof.
  induction a as [|x a IH].
  - change (EmptyString ++ String c b) with (char c ++ b).
    rewrite split_cut by discriminate. reflexivity.
  - cbn [append]. destruct (prefix (char c) (String x (a ++ String c b))) eqn:Hp.
    + assert (x = c) as ->.
      { unfold char in Hp. simpl in Hp. destruct (ascii_dec c x); congruence. }
      change (String c (a ++ String c b)) with (char c ++ (a ++ String c b)).
      change (String c a) with (char c ++ a).
      rewrite !split_cut by discriminate. now rewrite IH.
    + assert (prefix (char c) (String x a) = false) as Hp'.
      { unfold char in *. simpl in *. destruct (ascii_dec c x); [|reflexivity].
        destruct (a ++ String c b); discriminate. }
      rewrite !split_pass, IH by assumption.
      destruct (split a (char c)) as [|h t] eqn:E; [now apply split_scan_nonempty in E|].
      reflexivity.
Qed.

Lemma prefix_two (x y c e : ascii) (r : string) :
  prefix (String x (char y)) (String c (String e r))
  = if ascii_dec x c then (if ascii_dec y e then true else false) else false.
Proof.
  unfold char. simpl. destruct (ascii_dec x c); [|reflexivity].
  destruct (ascii_dec y e); [|reflexivity]. now destruct r.
Qed.

Lemma prefix_two_short (x y c : ascii) :
  prefix (String x (char y)) (char c) = false.
Proof. unfold char. simpl. now destruct (ascii_dec x c). Qed.

Lemma no_occurrence_two (x y : ascii) (a b : string) :
  contains (String x (char y)) a = false ->
  not_headed_by y b ->
  no_occurrence (String x (char y)) a b.
Proof.
  induction a as [|c a IH]; intros Hc Hb i Hi; [simpl in Hi; lia|].
  cbn [contains] in Hc. apply orb_false_elim in Hc as [Hp Hc].
  destruct i as [|i].
  - cbn [drop append]. destruct a as [|e a].
    + cbn [append]. destruct b as [|d b]; [apply prefix_two_short|].
      rewrite prefix_two. simpl in Hb.
      destruct (ascii_dec x c); [|reflexivity].
      destruct (ascii_dec y d); [congruence | reflexivity].
    + cbn [append]. rewrite prefix_two in *. exact Hp.
  - cbn [append drop]. apply IH; [assumption | assumption | simpl in Hi; lia].
Qed.

Lemma contains_two_snoc (x y z : ascii) (a : string) :
  z <> y ->
  contains (String x (char y)) a = false ->
  contains (String x (char y)) (a ++ char z) = false.
Proof.
  intros Hz. induction a as [|c a IH]; intros H.
  - unfold char. simpl. now destruct (ascii_dec x z).
  - cbn [contains] in H. apply orb_false_elim in H as [Hp Hc].
    cbn [append contains]. rewrite (IH Hc), orb_false_r.
    destruct a as [|e a].
    + cbn [append]. unfold char at 2. rewrite prefix_two.
      destruct (ascii_dec x c); [|reflexivity].
      destruct (ascii_dec y z); [congruence | reflexivity].
    + cbn [append]. rewrite prefix_two in *. exact Hp.
Qed.

(** *** list indexing *)

Lemma index_0 {A} (a : A) (l : list A) : index (a :: l) 0 = Some a.
Proof.
  unfold index, llen. cbn [List.length].
  replace (0 <? Z.of_nat (S (List.length l))) with true by (symmetry; apply Z.ltb_lt; lia).
  reflexivity.
Qed.

Lemma index_1 {A} (a b : A) (l : list A) : index (a :: b :: l) 1 = Some b.
Proof.
  unfold index, llen. cbn [List.length].
  replace (1 <? Z.of_nat (S (S (List.length l)))) with true
    by (symmetry; apply Z.ltb_lt; lia).
  reflexivity.
Qed.

Lemma index_last {A} (l : list A) (x : A) : index (l ++ [x])%list (-1) = Some x.
Proof.
  unfold index, llen. rewrite length_app. cbn [List.length].
  replace (-1 <? Z.of_nat (List.length l + 1)) with true
    by (symmetry; apply Z.ltb_lt; lia).
  cbn [Z.leb Z.compare andb].
  replace (- Z.of_nat (List.length l + 1) <=? -1) with true
    by (symmetry; apply Z.leb_le; lia).
  cbn [Z.ltb Z.compare andb].
  replace (Z.to_nat (Z.of_nat (List.length l + 1) + -1)) with (List.length l) by lia.
  rewrite nth_error_app2 by lia. now rewrite Nat.sub_diag.
Qed.

Lemma index_in_range {A} (l : list A) (i : Z) :
  0 <= i < llen l -> exists x, index l i = Some x.
Proof.
  intros H. unfold index.
  replace ((0 <=? i) && (i <? llen l)) with true
    by (symmetry; apply andb_true_iff; split; [apply Z.leb_le | apply Z.ltb_lt]; lia).
  destruct (nth_error l (Z.to_nat i)) eqn:E; [eauto|].
  apply nth_error_None in E. unfold llen in H. lia.
Qed.

End PyFacts.

(** ** [extract_video_id] *)

Section ExtractVideoId.
Import Py PyFacts.

(** Neither index of [extract_video_id] is ever out of range. *)
Lemma extract_video_id_total (url : string) :
  exists id, extract_video_id url = Some id.
Proof.
  unfold extract_video_id. destruct (contains "v=" url) eqn:Hc.
  - destruct (split_some "v=" url) as (a & b & t & E); [discriminate | assumption |].
    rewrite E, index_1.
    destruct (split b "&") as [|h t'] eqn:E'; [now apply split_scan_nonempty in E'|].
    rewrite index_0. now exists h.
  - destruct (split url "/") as [|h t] eqn:E; [now apply split_scan_nonempty in E|].
    assert (h :: t <> []) as Hne by discriminate.
    destruct (exists_last Hne) as (l' & x & ->).
    rewrite index_last. now exists x.
Qed.

Lemma extract_query (pre id rest : string) :
  contains "v=" pre = false ->
  contains "v=" id = false ->
  contains "&" id = false ->
  rest = EmptyString \/ (exists more, rest = "&" ++ more) ->
  extract_video_id (pre ++ "?v=" ++ id ++ rest) = Some id.
Proof.
  intros Hpre Hid Hamp Hrest.
  unfold extract_video_id.
  replace (pre ++ "?v=" ++ id ++ rest)
    with ((pre ++ char "?") ++ "v=" ++ (id ++ rest))
    by (rewrite append_assoc; reflexivity).
  rewrite contains_append_l.
  rewrite split_first; [| discriminate |].
  2:{ apply (no_occurrence_two "v" "=").
      - apply contains_two_snoc; [discriminate | exact Hpre].
      - simpl. discriminate. }
  destruct Hrest as [-> | [more ->]].
  - rewrite append_nil_r, (split_none _ _ Hid), index_1, (split_none _ _ Hamp).
    apply index_0.
  - destruct (split_prepend "v=" id ("&" ++ more)) as (h & t & Hb & Hab).
    { apply (no_occurrence_two "v" "="); [exact Hid | simpl; discriminate]. }
    rewrite Hab, index_1.
    change ("&" ++ more) with (char "&" ++ more) in Hb.
    assert (exists x, h = String "&" x) as [x ->].
    { change (char "&" ++ more) with (String "&" more) in Hb.
      rewrite split_pass in Hb.
      - destruct (split more "v=") as [|h0 t0]; simpl in Hb; injection Hb as <- _; eauto.
      - destruct more as [|d more]; [apply prefix_two_short|].
        apply (prefix_two "v" "=" "&" d more). }
    pose proof (split_char_append "&" id x) as E. unfold char in E.
    rewrite E, (split_none _ _ Hamp). apply index_0.
Qed.

Lemma extract_path (pre id : string) :
  contains "v=" (pre ++ "/" ++ id) = false ->
  contains "/" id = false ->
  extract_video_id (pre ++ "/" ++ id) = Some id.
Proof.
  intros Hv Hid. unfold extract_video_id. rewrite Hv.
  change ("/" ++ id) with (String "/" id).
  pose proof (split_char_append "/" pre id) as E. unfold char in E.
  rewrite E, (split_none _ _ Hid). apply index_last.
Qed.

End ExtractVideoId.

(** ** The retry loop: how one pass moves the cursor and the trace *)

Section RetryLoop.
Variable w : world.

Local Open Scope list_scope.

Local Abbreviation keys := (Py.llen (API_KEYS w)).
Local Abbreviation idx := current_api_key_index.

Lemma range_MAX_RETRIES : Py.range MAX_RETRIES = [0; 1; 2].
Proof. reflexivity. Qed.

Lemma invocations_emit_generate (a : Z) (m : model_handle) (p : string) (st : state) :
  invocations (trace (emit (Generate a m p) st)) = S (invocations (trace st)).
Proof.
  unfold invocations, emit. cbn [trace].
  rewrite filter_app, length_app. cbn. lia.
Qed.

Lemma invocations_app (t u : list event) :
  invocations (t ++ u) = (invocations t + invocations u)%nat.
Proof. unfold invocations. now rewrite filter_app, length_app. Qed.

(** the rotation step either moves the cursor to a successor that exists,
    or leaves the state as it is *)
Lemma rotate_key_cases (st : state) :
  (idx st < keys - 1 /\ idx (snd (rotate_key w st)) = idx st + 1) \/
  (keys - 1 <= idx st /\ rotate_key w st = (None, st)).
Proof.
  unfold rotate_key. destruct (idx st <? keys - 1) eqn:E.
  - left. apply Z.ltb_lt in E. split; [exact E|].
    destruct (create_gemini_model w _); reflexivity.
  - right. apply Z.ltb_ge in E. now split.
Qed.

Lemma backoff_index (attempt : Z) (m : model_handle) (st : state) :
  idx (snd (backoff_or_give_up w attempt m st)) = idx st.
Proof.
  unfold backoff_or_give_up. destruct (attempt <? MAX_RETRIES - 1); [reflexivity|].
  now destruct (_ >? 0).
Qed.

Lemma handle_exception_index (attempt : Z) (m : model_handle) (msg : string) (st : state) :
  idx (snd (handle_exception w attempt m msg st)) = idx st \/
  (is_rate_limit_error msg = true /\ idx st < keys - 1 /\
   idx (snd (handle_exception w attempt m msg st)) = idx st + 1).
Proof.
  unfold handle_exception. destruct (is_rate_limit_error msg) eqn:E.
  - destruct (rotate_key_cases st) as [[Hlt Hi] | [Hge Hr]].
    + right. repeat split; [exact Hlt|].
      destruct (rotate_key w st) as [[m'|] st']; cbn [snd] in *;
        [exact Hi | now rewrite backoff_index].
    + left. rewrite Hr. apply backoff_index.
  - left. now destruct (is_bad_key_error msg).
Qed.

Lemma none_is_not_rate_limit : is_rate_limit_error none_has_no_candidates = false.
Proof. reflexivity. Qed.

(** one pass leaves the cursor alone, or the call raised a rate-limit error,
    a successor existed and the cursor moved to it *)
Lemma attempt_body_index (prompt : string) (attempt : Z) (m : model_handle) (st : state) :
  idx (snd (attempt_body w prompt attempt m st)) = idx st \/
  (idx st < keys - 1 /\
   idx (snd (attempt_body w prompt attempt m st)) = idx st + 1 /\
   exists msg,
     generate_content w (invocations (trace st)) m prompt = Raises msg /\
     is_rate_limit_error msg = true).
Proof.
  unfold attempt_body.
  destruct (generate_content w (invocations (trace st)) m prompt) as [msg|[r|]].
  - destruct (handle_exception_index attempt m msg (emit (Generate attempt m prompt) st))
      as [H | (Hr & Hlt & Hi)]; [now left|].
    right. repeat split; try assumption. now exists msg.
  - now left.
  - destruct (handle_exception_index attempt m none_has_no_candidates
                (emit (Generate attempt m prompt) st)) as [H | (Hr & _)]; [now left|].
    rewrite none_is_not_rate_limit in Hr. discriminate.
Qed.

(** the trace only grows, by the events of the pass; the first is the call *)
Lemma attempt_body_trace (prompt : string) (attempt : Z) (m : model_handle) (st : state) :
  exists more,
    trace (snd (attempt_body w prompt attempt m st))
    = trace st ++ Generate attempt m prompt :: more.
Proof.
  assert (Hb : forall st0, exists more,
             trace (snd (backoff_or_give_up w attempt m st0)) = trace st0 ++ more).
  { intros st0. unfold backoff_or_give_up.
    destruct (attempt <? MAX_RETRIES - 1).
    - cbn [snd emit trace]. rewrite <- app_assoc. eauto.
    - destruct (_ >? 0); exists []; cbn [snd]; now rewrite app_nil_r. }
  assert (Hr : forall st0, exists more,
             trace (snd (rotate_key w st0)) = trace st0 ++ more).
  { intros st0. unfold rotate_key. destruct (idx st0 <? keys - 1).
    - destruct (create_gemini_model w _); cbn [snd emit trace set_index];
        rewrite <- ?app_assoc; eauto.
    - exists []. cbn [snd]. now rewrite app_nil_r. }
  assert (He : forall msg st0, exists more,
             trace (snd (handle_exception w attempt m msg st0)) = trace st0 ++ more).
  { intros msg st0. unfold handle_exception. destruct (is_rate_limit_error msg).
    - destruct (Hr st0) as [more1 H1].
      destruct (rotate_key w st0) as [[m'|] st1]; cbn [snd] in *; [eauto|].
      destruct (Hb st1) as [more2 H2]. rewrite H2, H1, <- app_assoc. eauto.
    - destruct (is_bad_key_error msg); exists []; cbn [snd]; now rewrite app_nil_r. }
  unfold attempt_body.
  destruct (generate_content w (invocations (trace st)) m prompt) as [msg|[r|]].
  - destruct (He msg (emit (Generate attempt m prompt) st)) as [more H].
    rewrite H. cbn [emit trace]. rewrite <- app_assoc. cbn [app]. eauto.
  - exists []. reflexivity.
  - destruct (He none_has_no_candidates (emit (Generate attempt m prompt) st)) as [more H].
    rewrite H. cbn [emit trace]. rewrite <- app_assoc. cbn [app]. eauto.
Qed.

(** *** the three ways a pass that met a rate-limit error can end *)

Lemma create_gemini_model_index_only (st st2 : state) :
  idx st = idx st2 -> create_gemini_model w st = create_gemini_model w st2.
Proof. unfold create_gemini_model. now intros ->. Qed.


Lemma body_rotates (prompt : string) (attempt : Z) (model : model_handle)
    (st : state) (msg : string) (m' : model_handle) :
  generate_content w (invocations (trace st)) model prompt = Raises msg ->
  is_rate_limit_error msg = true ->
  idx st < keys - 1 ->
  create_gemini_model w (set_index (idx st + 1) st) = inr m' ->
  attempt_body w prompt attempt model st
  = (Continue m',
     {| current_api_key_index := idx st + 1;
        trace := trace st ++ [Generate attempt model prompt;
                              Print (msg_switching (idx st + 2) keys)] |}).
Proof.
  intros Ho Hm Hlt Hc. unfold attempt_body. rewrite Ho.
  unfold handle_exception. rewrite Hm. unfold rotate_key.
  cbn [emit set_index current_api_key_index trace].
  replace (idx st <? keys - 1) with true by (symmetry; apply Z.ltb_lt; lia).
  erewrite create_gemini_model_index_only; [rewrite Hc | reflexivity].
  unfold emit, set_index. cbn [current_api_key_index trace].
  rewrite <- app_assoc. cbn [app].
  now replace (idx st + 1 + 1) with (idx st + 2) by lia.
Qed.

Lemma body_backs_off (prompt : string) (attempt : Z) (model : model_handle)
    (st : state) (msg : string) :
  generate_content w (invocations (trace st)) model prompt = Raises msg ->
  is_rate_limit_error msg = true ->
  keys - 1 <= idx st ->
  attempt < MAX_RETRIES - 1 ->
  exists line,
    attempt_body w prompt attempt model st
    = (Continue model,
       {| current_api_key_index := idx st;
          trace := trace st ++ [Generate attempt model prompt; Print line;
                                Sleep (BASE_DELAY * 2 ^ attempt)] |}).
Proof.
  intros Ho Hm Hge Ha. unfold attempt_body. rewrite Ho.
  unfold handle_exception. rewrite Hm. unfold rotate_key.
  cbn [emit set_index current_api_key_index trace].
  replace (idx st <? keys - 1) with false by (symmetry; apply Z.ltb_ge; lia).
  unfold backoff_or_give_up.
  replace (attempt <? MAX_RETRIES - 1) with true by (symmetry; apply Z.ltb_lt; lia).
  unfold emit. cbn [current_api_key_index trace].
  rewrite <- !app_assoc. cbn [app]. eauto.
Qed.

Lemma body_gives_up (prompt : string) (attempt : Z) (model : model_handle)
    (st : state) (msg : string) :
  generate_content w (invocations (trace st)) model prompt = Raises msg ->
  is_rate_limit_error msg = true ->
  keys - 1 <= idx st ->
  MAX_RETRIES - 1 <= attempt ->
  attempt_body w prompt attempt model st
  = (Return (if keys - idx st - 1 >? 0
             then msg_backup_remaining (keys - idx st - 1)
             else msg_all_exhausted),
     {| current_api_key_index := idx st;
        trace := trace st ++ [Generate attempt model prompt] |}).
Proof.
  intros Ho Hm Hge Ha. unfold attempt_body. rewrite Ho.
  unfold handle_exception. rewrite Hm. unfold rotate_key.
  cbn [emit set_index current_api_key_index trace].
  replace (idx st <? keys - 1) with false by (symmetry; apply Z.ltb_ge; lia).
  unfold backoff_or_give_up.
  replace (attempt <? MAX_RETRIES - 1) with false by (symmetry; apply Z.ltb_ge; lia).
  unfold emit. cbn [current_api_key_index trace].
  now destruct (_ >? 0).
Qed.

(** *** the whole loop *)

Lemma for_attempts_index (prompt : string) (attempts : list Z) :
  forall (m : model_handle) (st : state),
    let st' := snd (for_attempts w prompt attempts m st) in
    idx st <= idx st' /\
    (0 <= idx st < keys -> idx st' < keys) /\
    (idx st' <> idx st ->
     idx st < keys - 1 /\
     exists k m0 msg,
       generate_content w k m0 prompt = Raises msg /\
       is_rate_limit_error msg = true).
Proof.
  induction attempts as [|a rest IH]; intros m st; cbn [for_attempts].
  - cbn [snd]. split; [lia | split; [lia | intros H; now contradict H]].
  - pose proof (attempt_body_index prompt a m st) as Hb.
    destruct (attempt_body w prompt a m st) as [[result|m'] st1]; cbn [snd] in *.
    + destruct Hb as [Hsame | (Hlt & Hnext & msg & Hk)].
      * split; [lia | split; [lia | intros H; now contradict H]].
      * split; [lia | split; [lia | intros _; split; [lia | eauto]]].
    + specialize (IH m' st1). cbn zeta in IH. destruct IH as (Hle & Hin & Hch).
      destruct Hb as [Hsame | (Hlt & Hnext & msg & Hk)].
      * split; [lia | split; [intros ?; apply Hin; lia |]].
        intros Hne. destruct Hch as [Hlt Hex]; [lia|]. split; [lia | exact Hex].
      * split; [lia | split; [intros ?; apply Hin; lia |]].
        intros _. split; [lia | eauto].
Qed.

Lemma for_attempts_reachable (prompt : string) (attempts : list Z) :
  forall (m : model_handle) (st : state),
    reachable w st -> reachable w (snd (for_attempts w prompt attempts m st)).
Proof.
  induction attempts as [|a rest IH]; intros m st Hr; cbn [for_attempts].
  - exact Hr.
  - pose proof (reach_step w st _ Hr (step_attempt w prompt a m st)) as H1.
    destruct (attempt_body w prompt a m st) as [[result|m'] st1]; cbn [snd] in *.
    + exact H1.
    + now apply IH.
Qed.

Lemma for_attempts_trace (prompt : string) (attempts : list Z) :
  forall (m : model_handle) (st : state),
  exists more, trace (snd (for_attempts w prompt attempts m st)) = trace st ++ more.
Proof.
  induction attempts as [|a rest IH]; intros m st; cbn [for_attempts].
  - exists []. cbn [snd]. now rewrite app_nil_r.
  - destruct (attempt_body_trace prompt a m st) as [more1 H1].
    destruct (attempt_body w prompt a m st) as [[result|m'] st1]; cbn [snd] in *.
    + eauto.
    + destruct (IH m' st1) as [more2 H2]. rewrite H2, H1, <- app_assoc. eauto.
Qed.

(** the loop opens with a call at the first of its attempts *)
Lemma for_attempts_first_call (prompt : string) (a : Z) (rest : list Z)
    (m : model_handle) (st : state) :
  exists tail,
    trace (snd (for_attempts w prompt (a :: rest) m st))
    = trace st ++ Generate a m prompt :: tail.
Proof.
  cbn [for_attempts].
  destruct (attempt_body_trace prompt a m st) as [more1 H1].
  destruct (attempt_body w prompt a m st) as [[result|m'] st1]; cbn [snd] in *.
  - eauto.
  - destruct (for_attempts_trace prompt rest m' st1) as [more2 H2].
    rewrite H2, H1, <- app_assoc. cbn [app]. eauto.
Qed.

Lemma sleeps_app (t u : list event) : sleeps (t ++ u) = sleeps t ++ sleeps u.
Proof. unfold sleeps. apply flat_map_app. Qed.

(** one pass moves the cursor exactly when it goes through the rotation
    step, and then by one *)
Lemma attempt_body_index_exact (prompt : string) (attempt : Z) (m : model_handle)
    (st : state) :
  idx (snd (attempt_body w prompt attempt m st))
  = if rotates w prompt m st then idx st + 1 else idx st.
Proof.
  unfold attempt_body, rotates.
  destruct (generate_content w (invocations (trace st)) m prompt) as [msg|[r|]];
    [|reflexivity|].
  - unfold handle_exception. destruct (is_rate_limit_error msg); cbn [andb].
    + unfold rotate_key. cbn [emit current_api_key_index].
      destruct (idx st <? keys - 1).
      * destruct (create_gemini_model w _); cbn [snd];
          [now rewrite backoff_index | reflexivity].
      * now rewrite backoff_index.
    + now destruct (is_bad_key_error msg).
  - unfold handle_exception. rewrite none_is_not_rate_limit.
    now destruct (is_bad_key_error none_has_no_candidates).
Qed.

(** a run moves the cursor by the number of its passes that rotate *)
Lemma for_attempts_rotations (prompt : string) (attempts : list Z) :
  forall (m : model_handle) (st : state),
    idx (snd (for_attempts w prompt attempts m st))
    = idx st + rotations w prompt attempts m st.
Proof.
  induction attempts as [|a rest IH]; intros m st; cbn [for_attempts rotations].
  - cbn [snd]. lia.
  - pose proof (attempt_body_index_exact prompt a m st) as Hb.
    destruct (attempt_body w prompt a m st) as [[result|m'] st1]; cbn [snd] in *.
    + rewrite Hb. destruct (rotates w prompt m st); lia.
    + rewrite IH, Hb. destruct (rotates w prompt m st); lia.
Qed.

(** a pass whose call does not raise a rate-limit error ends the loop and
    leaves the cursor *)
Lemma attempt_body_terminal (prompt : string) (attempt : Z) (m : model_handle)
    (st : state) :
  (forall msg, generate_content w (invocations (trace st)) m prompt = Raises msg ->
               is_rate_limit_error msg = false) ->
  attempt_body w prompt attempt m st
  = (Return match generate_content w (invocations (trace st)) m prompt with
            | Returns (Some r) => classify_response r
            | Returns None => msg_other_error none_has_no_candidates
            | Raises msg =>
                if is_bad_key_error msg then msg_bad_key else msg_other_error msg
            end,
     emit (Generate attempt m prompt) st).
Proof.
  intros Hnot. unfold attempt_body.
  destruct (generate_content w (invocations (trace st)) m prompt) as [msg|[r|]].
  - unfold handle_exception. rewrite (Hnot msg eq_refl).
    now destruct (is_bad_key_error msg).
  - reflexivity.
  - reflexivity.
Qed.


End RetryLoop.

(** ** The key pool *)

Section KeyPool.
Variable w : world.
Local Open Scope list_scope.

Local Abbreviation keys := (Py.llen (API_KEYS w)).
Local Abbreviation idx := current_api_key_index.

(** the start-up code never leaves the key list empty *)
Lemma load_api_keys_nonempty (env : list (string * string)) : load_api_keys env <> [].
Proof. unfold load_api_keys. destruct (_ ++ _); discriminate. Qed.

Lemma at_least_one_key : 1 <= keys.
Proof.
  unfold Py.llen, API_KEYS. pose proof (load_api_keys_nonempty (environ w)) as H.
  destruct (load_api_keys (environ w)); [congruence | cbn [List.length]; lia].
Qed.

Lemma get_youtube_transcript_index (video_url : string) (language_code : option string)
    (st : state) :
  idx (snd (get_youtube_transcript w video_url language_code st)) = idx st.
Proof.
  unfold get_youtube_transcript.
  destruct (extract_video_id video_url); [|reflexivity].
  destruct (Py.truthy_opt language_code).
  - destruct language_code; [|reflexivity]. now destruct (get_transcript w _ _).
  - destruct (list_transcripts w _) as [e|[|c l]]; try reflexivity.
    now destruct (get_transcript w _ _).
Qed.

(** what one operation does to the cursor *)
Lemma op_step_index (st st' : state) :
  op_step w st st' ->
  idx st' = idx st \/ (idx st < keys - 1 /\ idx st' = idx st + 1).
Proof.
  intros [prompt attempt model st0 | url lang st0].
  - destruct (attempt_body_index w prompt attempt model st0) as [H | (Hlt & H & _)];
      [now left | now right].
  - left. apply get_youtube_transcript_index.
Qed.

Lemma reachable_in_range (st : state) : reachable w st -> 0 <= idx st < keys.
Proof.
  induction 1 as [|st st' _ IH Hstep].
  - cbn. pose proof at_least_one_key. lia.
  - destruct (op_step_index _ _ Hstep) as [-> | [Hlt ->]]; lia.
Qed.

Lemma op_step_cause (st st' : state) :
  op_step w st st' ->
  idx st' <> idx st ->
  exists prompt attempt model msg,
    st' = snd (attempt_body w prompt attempt model st) /\
    generate_content w (invocations (trace st)) model prompt = Raises msg /\
    is_rate_limit_error msg = true.
Proof.
  intros [prompt attempt model st0 | url lang st0] Hne.
  - destruct (attempt_body_index w prompt attempt model st0)
      as [H | (_ & _ & msg & Ho & Hm)]; [congruence|].
    exists prompt, attempt, model, msg. now repeat split.
  - now rewrite get_youtube_transcript_index in Hne.
Qed.

Lemma rotations_nonneg (prompt : string) (attempts : list Z) :
  forall (m : model_handle) (st : state), 0 <= rotations w prompt attempts m st.
Proof.
  induction attempts as [|a rest IH]; intros m st; cbn [rotations]; [lia|].
  destruct (attempt_body w prompt a m st) as [[result|m'] st1];
    [|specialize (IH m' st1)]; destruct (rotates w prompt m st); lia.
Qed.

(** C3: the cursor of the key pool stays inside the key list in every state
    the process can reach. It is written by the rotation step of the retry
    loop and by nothing else: a pass of the loop moves it exactly when its
    call raises a rate-limit error while a key follows the cursor, and then
    forward by one; the transcript retrieval leaves it; an operation that
    changed it was such a pass; a run of the loop moves it by the number of
    its passes that rotate. So it never decreases. On a pool whose cursor is
    at the last key the rotation step reports that no key follows and
    changes nothing, as often as it is tried. *)
Theorem key_index_invariant (st : state) :
  reachable w st ->
  0 <= idx st < keys
  /\ (forall st', op_step w st st' ->
        idx st <= idx st' < keys /\
        (idx st' <> idx st ->
         idx st < keys - 1 /\ idx st' = idx (snd (rotate_key w st)) /\
         idx st' = idx st + 1 /\
         exists prompt attempt model msg,
           st' = snd (attempt_body w prompt attempt model st) /\
           generate_content w (invocations (trace st)) model prompt = Raises msg /\
           is_rate_limit_error msg = true))
  /\ (forall model prompt,
        let st' := snd (generate_summary_with_retry w model prompt st) in
        reachable w st' /\ idx st <= idx st' < keys)
  /\ (idx st = keys - 1 ->
        rotate_key w st = (None, st) /\
        rotate_key w (snd (rotate_key w st)) = (None, st))
  /\ (forall prompt attempt model,
        idx (snd (attempt_body w prompt attempt model st))
        = if rotates w prompt model st then idx st + 1 else idx st)
  /\ (forall video_url language_code,
        idx (snd (get_youtube_transcript w video_url language_code st)) = idx st)
  /\ (forall model prompt,
        idx (snd (generate_summary_with_retry w model prompt st))
        = idx st + rotations w prompt (Py.range MAX_RETRIES) model st /\
        0 <= rotations w prompt (Py.range MAX_RETRIES) model st).
Proof.
  intros Hr. pose proof (reachable_in_range st Hr) as Hin.
  split; [exact Hin|]. split; [|split; [|split; [|split; [|split]]]].
  - intros st' Hstep.
    destruct (op_step_index _ _ Hstep) as [Hsame | [Hlt Hnext]].
    + split; [lia | intros Hne; now contradict Hne].
    + split; [lia|]. intros Hne. split; [exact Hlt|]. split; [|split; [exact Hnext|]].
      * destruct (rotate_key_cases w st) as [[_ H] | [H _]]; lia.
      * now apply op_step_cause.
  - intros model prompt st'. subst st'. unfold generate_summary_with_retry.
    split; [now apply for_attempts_reachable|].
    destruct (for_attempts_index w prompt (Py.range MAX_RETRIES) model st)
      as (Hle & Hlt & _).
    split; [exact Hle | now apply Hlt].
  - intros Hlast.
    destruct (rotate_key_cases w st) as [[Hlt _] | [_ H]]; [lia|].
    rewrite H. cbn [snd]. now split.
  - intros prompt attempt model. apply attempt_body_index_exact.
  - intros url lang. apply get_youtube_transcript_index.
  - intros model prompt. unfold generate_summary_with_retry.
    split; [apply for_attempts_rotations | apply rotations_nonneg].
Qed.

End KeyPool.

Lemma key_index_invariant_witness :
  let W := Scenario.always_rate_limited 2 in
  let ST := snd (attempt_body W "p" 0 Scenario.first_model initial_state) in
  reachable W ST /\
  0 <= current_api_key_index ST < Py.llen (API_KEYS W) /\
  rotate_key W ST = (None, ST) /\
  rotate_key W (snd (rotate_key W ST)) = (None, ST) /\
  current_api_key_index (snd (attempt_body W "p" 1 Scenario.second_model ST))
  = current_api_key_index ST.
Proof.
  intros W ST.
  assert (Hr : reachable W ST).
  { apply (reach_step W initial_state); [apply reach_initial|].
    apply (step_attempt W "p" 0 Scenario.first_model initial_state). }
  destruct (key_index_invariant W ST Hr) as (Hin & _ & _ & Hlast & Hpass & _).
  split; [exact Hr|]. split; [exact Hin|].
  split; [|split]; [apply Hlast; vm_compute; reflexivity
                   | apply Hlast; vm_compute; reflexivity |].
  rewrite Hpass. reflexivity.
Defined.

(** ** Rotation inside the retry loop *)

Section Rotation.
Variable w : world.
Local Open Scope list_scope.

Local Abbreviation keys := (Py.llen (API_KEYS w)).
Local Abbreviation idx := current_api_key_index.


End Rotation.



(** ** A service that always reports a rate limit *)

Section AlwaysRateLimited.
Variable w : world.
Hypothesis rate_limited : always_rate_limits w.
Hypothesis rebuilds : genai_never_fails w.
Local Open Scope list_scope.

Local Abbreviation keys := (Py.llen (API_KEYS w)).
Local Abbreviation idx := current_api_key_index.


(** the pass at the head of the loop sleeps and goes on with the same handle *)
Lemma loop_backs_off (prompt : string) (a : Z) (rest : list Z) (m : model_handle)
    (st : state) :
  keys - 1 <= idx st -> a < MAX_RETRIES - 1 ->
  exists line,
    for_attempts w prompt (a :: rest) m st
    = for_attempts w prompt rest m
        {| current_api_key_index := idx st;
           trace := trace st ++ [Generate a m prompt; Print line;
                                 Sleep (BASE_DELAY * 2 ^ a)] |}.
Proof.
  intros Hi Ha.
  destruct (rate_limited (invocations (trace st)) m prompt) as (msg & Ho & Hm).
  destruct (body_backs_off w prompt a m st msg Ho Hm Hi Ha) as [line Hb].
  exists line. cbn [for_attempts]. now rewrite Hb.
Qed.

(** the pass at the head of the loop is the last and finds the pool at its
    last key *)
Lemma loop_gives_up (prompt : string) (a : Z) (rest : list Z) (m : model_handle)
    (st : state) :
  idx st = keys - 1 -> MAX_RETRIES - 1 <= a ->
  for_attempts w prompt (a :: rest) m st
  = (msg_all_exhausted,
     {| current_api_key_index := idx st;
        trace := trace st ++ [Generate a m prompt] |}).
Proof.
  intros Hi Ha.
  destruct (rate_limited (invocations (trace st)) m prompt) as (msg & Ho & Hm).
  cbn [for_attempts].
  rewrite (body_gives_up w prompt a m st msg Ho Hm ltac:(lia) Ha).
  replace (keys - idx st - 1 >? 0) with false; [reflexivity|].
  symmetry. rewrite Z.gtb_ltb. apply Z.ltb_ge. lia.
Qed.

End AlwaysRateLimited.




(** ** Terminal answers of the first call *)

(** C7: when the first call returns a response without text whose first
    candidate has the finish reason SAFETY, the loop returns the safety
    message at once: the service has been invoked exactly once, nothing was
    slept and the cursor has not moved. *)
Theorem safety_block_returns_at_once (w : world) (model : model_handle)
    (prompt : string) (st : state) (r : response) (c : candidate)
    (others : list candidate) :
  generate_content w (invocations (trace st)) model prompt = Returns (Some r) ->
  text r = EmptyString ->
  candidates r = c :: others ->
  finish_reason c = Some "SAFETY" ->
  let out := generate_summary_with_retry w model prompt st in
  fst out = "Error: Content blocked by safety filter." /\
  trace (snd out) = (trace st ++ [Generate 0 model prompt])%list /\
  invocations (trace (snd out)) = S (invocations (trace st)) /\
  sleeps (trace (snd out)) = sleeps (trace st) /\
  current_api_key_index (snd out) = current_api_key_index st.
Proof.
  intros Ho Ht Hc Hf out. subst out.
  unfold generate_summary_with_retry. rewrite range_MAX_RETRIES.
  cbn [for_attempts]. unfold attempt_body. rewrite Ho.
  unfold classify_response. rewrite Ht, Hc, Hf.
  cbn [Py.truthy String.eqb fst snd emit trace current_api_key_index].
  repeat split.
  - apply (invocations_emit_generate 0 model prompt st).
  - rewrite sleeps_app. cbn. apply app_nil_r.
Qed.

Lemma safety_block_returns_at_once_witness :
  let W := Scenario.scripted 2 (fun _ => Scenario.safety_blocked) in
  let out := generate_summary_with_retry W Scenario.first_model "p" initial_state in
  fst out = "Error: Content blocked by safety filter." /\
  invocations (trace (snd out)) = 1%nat.
Proof.
  intros W out.
  destruct (safety_block_returns_at_once W Scenario.first_model "p" initial_state
              {| text := EmptyString;
                 candidates := [ {| finish_reason := Some "SAFETY" |} ] |}
              {| finish_reason := Some "SAFETY" |} [])
    as (Hmsg & _ & Hcalls & _); try reflexivity.
  split; [exact Hmsg | exact Hcalls].
Defined.

(** C9: the loop leaves the cursor where it was on every path except the
    rotation step. Pass by pass: a pass moves the cursor exactly when its
    call raises a rate-limit error while a key follows the cursor, and then
    by one; a pass whose call returns (a text, a safety block, an empty
    response, no candidate, no response object) or raises an error that is
    not a rate-limit error (a bad key, or any other) ends the loop with the
    state it had, the call added, whatever the attempt and whatever passes
    went before. For a run: the cursor moves by the number of its passes
    that rotate; a changed cursor means that a successor key existed and a
    call raised a rate-limit error; and when the first call is not a
    rate-limit error the run ends after it with the cursor unchanged. *)
Theorem key_index_frame (w : world) (model : model_handle) (prompt : string)
    (st : state) :
  let first := generate_content w (invocations (trace st)) model prompt in
  let out := generate_summary_with_retry w model prompt st in
  (current_api_key_index (snd out) <> current_api_key_index st ->
   current_api_key_index st < Py.llen (API_KEYS w) - 1 /\
   exists k m msg,
     generate_content w k m prompt = Raises msg /\ is_rate_limit_error msg = true)
  /\
  ((forall msg, first = Raises msg -> is_rate_limit_error msg = false) ->
   snd out = emit (Generate 0 model prompt) st /\
   current_api_key_index (snd out) = current_api_key_index st /\
   fst out = match first with
             | Returns (Some r) => classify_response r
             | Returns None => msg_other_error none_has_no_candidates
             | Raises msg =>
                 if is_bad_key_error msg then msg_bad_key else msg_other_error msg
             end)
  /\
  (forall attempt m st0,
     current_api_key_index (snd (attempt_body w prompt attempt m st0))
     = if rotates w prompt m st0
       then current_api_key_index st0 + 1 else current_api_key_index st0)
  /\
  (forall attempt m st0,
     (forall msg,
        generate_content w (invocations (trace st0)) m prompt = Raises msg ->
        is_rate_limit_error msg = false) ->
     attempt_body w prompt attempt m st0
     = (Return match generate_content w (invocations (trace st0)) m prompt with
               | Returns (Some r) => classify_response r
               | Returns None => msg_other_error none_has_no_candidates
               | Raises msg =>
                   if is_bad_key_error msg then msg_bad_key
                   else msg_other_error msg
               end,
        emit (Generate attempt m prompt) st0))
  /\
  (current_api_key_index (snd out)
   = current_api_key_index st + rotations w prompt (Py.range MAX_RETRIES) model st)
  /\
  (Py.llen (API_KEYS w) - 1 <= current_api_key_index st ->
   current_api_key_index (snd out) = current_api_key_index st).
Proof.
  intros first out.
  assert (Hcount : current_api_key_index (snd out)
                   = current_api_key_index st
                     + rotations w prompt (Py.range MAX_RETRIES) model st).
  { subst out. unfold generate_summary_with_retry. apply for_attempts_rotations. }
  assert (Hchange : current_api_key_index (snd out) <> current_api_key_index st ->
            current_api_key_index st < Py.llen (API_KEYS w) - 1 /\
            exists k m msg,
              generate_content w k m prompt = Raises msg /\
              is_rate_limit_error msg = true).
  { subst out. unfold generate_summary_with_retry.
    apply (for_attempts_index w prompt (Py.range MAX_RETRIES) model st). }
  split; [exact Hchange|]. split; [|split; [|split; [|split]]].
  - intros Hnot. subst out first.
    unfold generate_summary_with_retry. rewrite range_MAX_RETRIES.
    cbn [for_attempts]. rewrite (attempt_body_terminal w prompt 0 model st Hnot).
    cbn [fst snd]. now repeat split.
  - intros attempt m st0. apply attempt_body_index_exact.
  - intros attempt m st0. apply attempt_body_terminal.
  - exact Hcount.
  - intros Hlast.
    destruct (Z.eq_dec (current_api_key_index (snd out)) (current_api_key_index st))
      as [E | Hne]; [exact E|].
    destruct (Hchange Hne) as [Hlt _]. lia.
Qed.

Lemma key_index_frame_witness :
  let W := Scenario.scripted 3 (fun _ => Scenario.invalid_key) in
  let out := generate_summary_with_retry W Scenario.first_model "p" initial_state in
  let W2 := Scenario.scripted 3 (fun k => match k with
                                          | O => Raises Scenario.quota_message
                                          | _ => Scenario.invalid_key
                                          end) in
  let out2 := generate_summary_with_retry W2 Scenario.first_model "p" initial_state in
  (fst out = msg_bad_key /\ current_api_key_index (snd out) = 0) /\
  (fst out2 = msg_bad_key /\ current_api_key_index (snd out2) = 1).
Proof.
  intros W out W2 out2. split.
  - destruct (key_index_frame W Scenario.first_model "p" initial_state)
      as (_ & H & _).
    destruct H as (_ & Hidx & Hmsg).
    + intros msg Hfirst. injection Hfirst as <-. reflexivity.
    + split; [exact Hmsg | exact Hidx].
  - destruct (key_index_frame W2 Scenario.first_model "p" initial_state)
      as (_ & _ & _ & _ & Hcount & _).
    split; [reflexivity|]. unfold out2. rewrite Hcount. reflexivity.
Defined.

(** ** The summarize entry points *)

Section Summarize.
Import Py PyFacts.

(** C5: on the empty transcript both entry points return the message
    "Error: Transcript is empty." whatever the options are, and the state
    comes back as it was: no call of the completion service is recorded. *)
Theorem empty_transcript_is_reported (w : world) (model : model_handle)
    (summary_style detail_level translate_to : string) (st : state) :
  summarize_transcript_advanced w (Some EmptyString) model
    summary_style detail_level translate_to st
  = ("Error: Transcript is empty.", st)
  /\ summarize_transcript w (Some EmptyString) model st
     = ("Error: Transcript is empty.", st)
  /\ invocations
       (trace (snd (summarize_transcript_advanced w (Some EmptyString) model
                      summary_style detail_level translate_to st)))
     = invocations (trace st).
Proof. repeat split. Qed.

(** the retriever answers [None] when the transcript source raises *)
Lemma get_youtube_transcript_failure (w : world) (video_url : string)
    (language_code : option string) (st : state) :
  (forall id langs, exists e, get_transcript w id langs = SourceError e) ->
  fst (get_youtube_transcript w video_url language_code st) = None.
Proof.
  intros Hfail. unfold get_youtube_transcript.
  destruct (extract_video_id video_url) as [id|]; [|reflexivity].
  destruct (truthy_opt language_code).
  - destruct language_code as [code|]; [|reflexivity].
    destruct (Hfail id [code]) as [e ->]. reflexivity.
  - destruct (list_transcripts w id) as [e|[|c l]]; try reflexivity.
    destruct (Hfail id (c :: l)) as [e ->]. reflexivity.
Qed.

(** C10: a missing transcript, the [None] the retriever returns on failure,
    is answered by both entry points as the empty string is: with the
    message "Error: Transcript is empty." and the state as it was, so
    without a call of the completion service. *)
Theorem missing_transcript_is_reported (w : world) (model : model_handle)
    (summary_style detail_level translate_to : string) (st : state) :
  summarize_transcript_advanced w None model summary_style detail_level translate_to st
  = ("Error: Transcript is empty.", st)
  /\ summarize_transcript w None model st = ("Error: Transcript is empty.", st)
  /\ summarize_transcript_advanced w None model summary_style detail_level translate_to st
     = summarize_transcript_advanced w (Some EmptyString) model
         summary_style detail_level translate_to st
  /\ summarize_transcript w None model st
     = summarize_transcript w (Some EmptyString) model st
  /\ (forall video_url language_code,
        let fetched := get_youtube_transcript w video_url language_code st in
        fst fetched = None ->
        summarize_transcript_advanced w (fst fetched) model
          summary_style detail_level translate_to (snd fetched)
        = ("Error: Transcript is empty.", snd fetched)
        /\ summarize_transcript w (fst fetched) model (snd fetched)
           = ("Error: Transcript is empty.", snd fetched)).
Proof.
  repeat split; intros; rewrite H; reflexivity.
Qed.

Lemma max_transcript_length_cases (detail_level : string) :
  max_transcript_length detail_level = 6000 \/
  max_transcript_length detail_level = 8000 \/
  max_transcript_length detail_level = 12000.
Proof.
  unfold max_transcript_length.
  destruct (detail_level =? "brief")%string; [now left|].
  destruct (detail_level =? "detailed")%string; [now right; right | now right; left].
Qed.

Lemma truncate_long (budget : Z) (t : string) :
  0 <= budget -> len t > budget ->
  truncate budget t = slice_to budget t ++ ellipsis /\
  len (truncate budget t) = budget + len ellipsis /\
  endswith (truncate budget t) ellipsis = true.
Proof.
  intros Hb Hlong. unfold truncate.
  replace (len t >? budget) with true
    by (symmetry; rewrite Z.gtb_ltb; apply Z.ltb_lt; lia).
  split; [reflexivity|]. split; [|apply endswith_append].
  rewrite len_append. unfold slice_to, len in *. rewrite length_take. lia.
Qed.

Lemma truthy_of_len (t : string) : 0 < len t -> truthy t = true.
Proof. destruct t; [cbn; lia | reflexivity]. Qed.

(** C4: a transcript longer than the budget of the detail level (6000 for
    brief, 12000 for detailed, 8000 for medium and for every other value)
    enters the prompt as its first budget characters followed by the
    ellipsis: the segment has the length of the budget plus that of the
    ellipsis and ends with the ellipsis. *)
Theorem truncated_segment_length (t detail_level : string) :
  len t > max_transcript_length detail_level ->
  let budget := max_transcript_length detail_level in
  let seg := truncate budget t in
  len seg = budget + len ellipsis
  /\ endswith seg ellipsis = true
  /\ seg = slice_to budget t ++ ellipsis
  /\ (max_transcript_length "brief" = 6000 /\
      max_transcript_length "medium" = 8000 /\
      max_transcript_length "detailed" = 12000 /\
      (detail_level <> "brief" -> detail_level <> "detailed" -> budget = 8000))
  /\ (forall w model summary_style translate_to st,
        summarize_transcript_advanced w (Some t) model
          summary_style detail_level translate_to st
        = generate_summary_with_retry w model
            (advanced_prompt seg summary_style detail_level translate_to) st)
  /\ (forall summary_style translate_to, exists rest,
        advanced_prompt seg summary_style detail_level translate_to
        = "Summarize this YouTube video transcript in the requested format:"
          ++ nl ++ nl ++ seg ++ nl ++ nl ++ rest).
Proof.
  intros Hlong budget seg.
  assert (Hb : 0 <= budget)
    by (subst budget; destruct (max_transcript_length_cases detail_level)
          as [-> | [-> | ->]]; lia).
  destruct (truncate_long budget t Hb Hlong) as (Hseg & Hlen & Hend).
  split; [exact Hlen|]. split; [exact Hend|]. split; [exact Hseg|].
  split; [|split].
  - split; [reflexivity|]. split; [reflexivity|]. split; [reflexivity|].
    intros Hb1 Hb2. subst budget. unfold max_transcript_length.
    apply String.eqb_neq in Hb1, Hb2. now rewrite Hb1, Hb2.
  - intros w model summary_style translate_to st.
    unfold summarize_transcript_advanced.
    rewrite truthy_of_len by (subst budget; lia). reflexivity.
  - intros summary_style translate_to. unfold advanced_prompt. eauto.
Qed.

Lemma truncated_segment_length_witness :
  let t := Scenario.filler (Z.to_nat 6001) in
  len t > max_transcript_length "brief" /\
  len (truncate (max_transcript_length "brief") t) = 6003 /\
  endswith (truncate (max_transcript_length "brief") t) ellipsis = true.
Proof.
  intros t.
  assert (Hlong : len t > max_transcript_length "brief") by (vm_compute; reflexivity).
  destruct (truncated_segment_length t "brief" Hlong) as (Hlen & Hend & _).
  split; [exact Hlong|]. split; [exact Hlen | exact Hend].
Defined.

End Summarize.

(** ** The simple entry point against the advanced one *)

Section SimpleEntry.
Import Py PyFacts.

(** the two prompts are not the same text: the first lines differ *)
Lemma prompts_differ_in_wording (seg : string) :
  simple_prompt seg <> advanced_prompt seg "default" "medium" "none".
Proof.
  intros H.
  apply (f_equal (prefix "Summarize this YouTube video transcript in an")) in H.
  discriminate H.
Qed.

(** C8: for a transcript that is not empty, [summarize_transcript] and
    [summarize_transcript_advanced] with style default and detail medium
    send prompts of the same make: the transcript cut in the same way, as it
    is up to 8000 characters and as its first 8000 characters followed by
    the ellipsis beyond, then the same four-point outline (Main Topic, Key
    Points, Important Details, Conclusions), with the closing cue
    "Summary:" at the end; the first call of each carries that prompt. *)
Theorem simple_entry_matches_default_outline (w : world) (model : model_handle)
    (t : string) (st : state) :
  t <> EmptyString ->
  let seg := truncate 8000 t in
  summarize_transcript w (Some t) model st
  = generate_summary_with_retry w model (simple_prompt seg) st
  /\ summarize_transcript_advanced w (Some t) model "default" "medium" "none" st
     = generate_summary_with_retry w model
         (advanced_prompt seg "default" "medium" "none") st
  /\ truncate (max_transcript_length "medium") t = seg
  /\ four_point_outline_prompt (simple_prompt seg) seg
  /\ four_point_outline_prompt (advanced_prompt seg "default" "medium" "none") seg
  /\ endswith (simple_prompt seg) "Summary:" = true
  /\ endswith (advanced_prompt seg "default" "medium" "none") "Summary:" = true
  /\ (contains "1. Main Topic" four_point_outline = true /\
      contains "2. Key Points" four_point_outline = true /\
      contains "3. Important Details" four_point_outline = true /\
      contains "4. Conclusions" four_point_outline = true)
  /\ (len t > 8000 ->
      seg = slice_to 8000 t ++ "..." /\
      len seg = 8003 /\
      len (slice_to 8000 t) = 8000 /\
      prefix (slice_to 8000 t) t = true /\
      endswith seg "..." = true)
  /\ (len t <= 8000 -> seg = t)
  /\ (exists tail,
        trace (snd (summarize_transcript w (Some t) model st))
        = (trace st ++ Generate 0 model (simple_prompt seg) :: tail)%list)
  /\ (exists tail,
        trace (snd (summarize_transcript_advanced w (Some t) model
                      "default" "medium" "none" st))
        = (trace st
           ++ Generate 0 model (advanced_prompt seg "default" "medium" "none")
                :: tail)%list).
Proof.
  intros Hne seg.
  assert (Ht : truthy t = true) by (destruct t; [congruence | reflexivity]).
  assert (Hrun1 : summarize_transcript w (Some t) model st
                  = generate_summary_with_retry w model (simple_prompt seg) st)
    by (unfold summarize_transcript; now rewrite Ht).
  assert (Hrun2 : summarize_transcript_advanced w (Some t) model
                    "default" "medium" "none" st
                  = generate_summary_with_retry w model
                      (advanced_prompt seg "default" "medium" "none") st)
    by (unfold summarize_transcript_advanced; now rewrite Ht).
  split; [exact Hrun1|]. split; [exact Hrun2|].
  split; [reflexivity|].
  assert (Hs : four_point_outline_prompt (simple_prompt seg) seg).
  { exists "Summarize this YouTube video transcript in an organized format:",
           (nl ++ nl).
    unfold simple_prompt. now rewrite !append_assoc. }
  assert (Ha : four_point_outline_prompt
                 (advanced_prompt seg "default" "medium" "none") seg).
  { exists "Summarize this YouTube video transcript in the requested format:",
           (nl ++ nl ++ "Instructions: "
            ++ "Provide a balanced level of detail with key information."
            ++ nl ++ nl).
    unfold advanced_prompt.
    change (dict_get style_prompts "default" (dict_get style_prompts "default" EmptyString))
      with four_point_outline.
    change (dict_get detail_instructions "medium"
              (dict_get detail_instructions "medium" EmptyString))
      with "Provide a balanced level of detail with key information.".
    change (translation_instruction "none") with EmptyString.
    cbn [append]. now rewrite !append_assoc. }
  split; [exact Hs|]. split; [exact Ha|].
  split; [|split; [|split; [|split; [|split; [|split]]]]].
  - destruct Hs as (p & i & ->).
    rewrite <- !append_assoc. apply endswith_append.
  - destruct Ha as (p & i & ->).
    rewrite <- !append_assoc. apply endswith_append.
  - repeat split.
  - intros Hlong.
    destruct (truncate_long 8000 t ltac:(lia) Hlong) as (Hseg & Hlen & Hend).
    fold seg in Hseg, Hlen, Hend.
    split; [exact Hseg|]. split; [exact Hlen|]. split; [|split; [|exact Hend]].
    + unfold slice_to, len in *. rewrite length_take. lia.
    + unfold slice_to. apply prefix_take.
  - intros Hshort. subst seg. unfold truncate.
    now replace (len t >? 8000) with false
      by (symmetry; rewrite Z.gtb_ltb; apply Z.ltb_ge; lia).
  - rewrite Hrun1. unfold generate_summary_with_retry. rewrite range_MAX_RETRIES.
    apply for_attempts_first_call.
  - rewrite Hrun2. unfold generate_summary_with_retry. rewrite range_MAX_RETRIES.
    apply for_attempts_first_call.
Qed.

Lemma simple_entry_matches_default_outline_witness :
  let W := Scenario.scripted 1 (fun _ => Scenario.answer "ok") in
  let long := Scenario.filler (Z.to_nat 8001) in
  four_point_outline_prompt (simple_prompt (truncate 8000 "hello world")) "hello world" /\
  four_point_outline_prompt
    (advanced_prompt (truncate 8000 "hello world") "default" "medium" "none")
    "hello world" /\
  summarize_transcript W (Some "hello world") Scenario.first_model initial_state
  = generate_summary_with_retry W Scenario.first_model
      (simple_prompt "hello world") initial_state /\
  truncate 8000 long = slice_to 8000 long ++ "..." /\
  len (truncate 8000 long) = 8003 /\
  summarize_transcript W (Some long) Scenario.first_model initial_state
  = generate_summary_with_retry W Scenario.first_model
      (simple_prompt (truncate 8000 long)) initial_state.
Proof.
  intros W long.
  destruct (simple_entry_matches_default_outline W Scenario.first_model
              "hello world" initial_state) as (Hrun & _ & _ & Hs & Ha & _).
  - discriminate.
  - destruct (simple_entry_matches_default_outline W Scenario.first_model
                long initial_state) as (Hrun' & _ & _ & _ & _ & _ & _ & _ & Hcut & _).
    + vm_compute. discriminate.
    + destruct Hcut as (Hseg & Hlen & _); [vm_compute; reflexivity|].
      split; [exact Hs|]. split; [exact Ha|]. split; [exact Hrun|].
      split; [exact Hseg|]. split; [exact Hlen | exact Hrun'].
Defined.

End SimpleEntry.

(** ** The two URL shapes *)

(** C6 (amended): for a URL [pre ++ "?v=" ++ id ++ rest], where [rest] is
    empty or starts with [&], [pre] holds no [v=] and [id] holds neither
    [v=] nor [&], and for a URL [pre ++ "/" ++ id] that holds no [v=] and
    whose [id] holds no [/], the extraction returns exactly [id]. *)
Theorem extract_video_id_plain_shapes (url id : string) :
  plain_query_form url id \/ plain_path_form url id ->
  extract_video_id url = Some id.
Proof.
  intros [(pre & rest & -> & Hrest & Hpre & Hid & Hamp) | (pre & -> & Hv & Hid)].
  - now apply extract_query.
  - now apply extract_path.
Qed.

Lemma extract_video_id_plain_shapes_witness :
  extract_video_id "https://www.youtube.com/watch?v=dQw4w9WgXcQ&t=42s"
  = Some "dQw4w9WgXcQ" /\
  extract_video_id "https://youtu.be/dQw4w9WgXcQ" = Some "dQw4w9WgXcQ".
Proof.
  split.
  - apply extract_video_id_plain_shapes. left.
    exists "https://www.youtube.com/watch", "&t=42s".
    split; [reflexivity|]. split; [right; exists "t=42s"; reflexivity|].
    split; [reflexivity|]. split; reflexivity.
  - apply extract_video_id_plain_shapes. right.
    exists "https://youtu.be".
    split; [reflexivity|]. split; reflexivity.
Defined.

(** C6 as the specification words it fails: a URL of the query shape whose
    part before [?v=] holds another parameter ending in [v=], and a URL of
    the path shape that holds [v=]. *)
Lemma extract_video_id_shape_counterexample :
  query_form "https://www.youtube.com/redirect?env=prod&q=/watch?v=dQw4w9WgXcQ"
             "dQw4w9WgXcQ" /\
  extract_video_id "https://www.youtube.com/redirect?env=prod&q=/watch?v=dQw4w9WgXcQ"
  = Some "prod" /\
  extract_video_id "https://www.youtube.com/redirect?env=prod&q=/watch?v=dQw4w9WgXcQ"
  <> Some "dQw4w9WgXcQ" /\
  path_form "https://example.com/play?env=prod/dQw4w9WgXcQ" "dQw4w9WgXcQ" /\
  extract_video_id "https://example.com/play?env=prod/dQw4w9WgXcQ"
  <> Some "dQw4w9WgXcQ".
Proof.
  split; [|split; [reflexivity | split; [discriminate | split; [|discriminate]]]].
  - exists "https://www.youtube.com/redirect?env=prod&q=/watch", EmptyString.
    split; [reflexivity | now left].
  - exists "https://example.com/play?env=prod". reflexivity.
Qed.

(** * Further properties of the code *)

(** ** Loading the keys, the status, the handle *)

Section KeysAndHandles.
Local Open Scope list_scope.

Lemma keep_if_set_cases (v : option string) :
  keep_if_set v = [] \/
  exists k, keep_if_set v = [k] /\ k <> EmptyString /\ v = Some k.
Proof.
  destruct v as [[|c k]|]; cbn; auto. right. exists (String c k).
  repeat split. discriminate.
Qed.

Lemma load_api_keys_unfold (env : list (string * string)) :
  load_api_keys env
  = match flat_map (fun n => keep_if_set (getenv env n)) key_variables with
    | [] => ["your_google_api_key_here"]
    | configured => configured
    end.
Proof. reflexivity. Qed.

(** X1: the key list built at start-up holds between one and five keys and
    none of them is the empty string. *)
Theorem load_api_keys_bounds (env : list (string * string)) :
  (1 <= List.length (load_api_keys env) <= 5)%nat /\
  Forall (fun k => k <> EmptyString) (load_api_keys env).
Proof.
  rewrite load_api_keys_unfold. unfold key_variables. cbn [flat_map].
  destruct (keep_if_set_cases (getenv env "GOOGLE_API_KEY")) as [-> | (k1 & -> & H1 & _)];
  destruct (keep_if_set_cases (getenv env "GOOGLE_API_KEY_2")) as [-> | (k2 & -> & H2 & _)];
  destruct (keep_if_set_cases (getenv env "GOOGLE_API_KEY_3")) as [-> | (k3 & -> & H3 & _)];
  destruct (keep_if_set_cases (getenv env "GOOGLE_API_KEY_4")) as [-> | (k4 & -> & H4 & _)];
  destruct (keep_if_set_cases (getenv env "GOOGLE_API_KEY_5")) as [-> | (k5 & -> & H5 & _)];
  cbn [app List.length]; (split; [lia|]);
  repeat (apply Forall_cons; [first [assumption | discriminate]|]); apply Forall_nil.
Qed.

(** X2: the keys are the non-empty values of GOOGLE_API_KEY and
    GOOGLE_API_KEY_2 to GOOGLE_API_KEY_5, in that order, whatever else the
    environment holds, and a primary key that is set comes first. When none
    of the five is set the list is the placeholder alone; when some are set
    the list is their values and nothing is added. So the list is the
    placeholder alone exactly when none is set or when the only value set is
    the placeholder text itself. *)
Theorem load_api_keys_order (env : list (string * string)) :
  let configured := flat_map (fun n => keep_if_set (getenv env n)) key_variables in
  (configured <> [] -> load_api_keys env = configured)
  /\ (configured = [] -> load_api_keys env = ["your_google_api_key_here"])
  /\ (forall k, getenv env "GOOGLE_API_KEY" = Some k -> k <> EmptyString ->
        exists rest, load_api_keys env = k :: rest)
  /\ (forall env', (forall n, In n key_variables -> getenv env' n = getenv env n) ->
        load_api_keys env' = load_api_keys env)
  /\ (load_api_keys env = ["your_google_api_key_here"] <->
      configured = [] \/ configured = ["your_google_api_key_here"]).
Proof.
  intros configured. rewrite load_api_keys_unfold. fold configured.
  split; [|split; [|split; [|split]]].
  - destruct configured; [congruence | reflexivity].
  - now intros ->.
  - intros k Hk Hne. subst configured. unfold key_variables. cbn [flat_map].
    rewrite Hk. destruct k as [|c k]; [congruence|]. cbn [keep_if_set Py.truthy app].
    eauto.
  - intros env' Hsame. rewrite load_api_keys_unfold. subst configured.
    unfold key_variables in *. cbn [flat_map].
    now rewrite !Hsame by (cbn; auto 10).
  - destruct configured as [|k rest].
    + split; [now left | reflexivity].
    + split; [intros H; now right | intros [H|H]; [discriminate H | exact H]].
Qed.

Lemma load_api_keys_order_witness :
  load_api_keys [("GOOGLE_API_KEY_3", "c"); ("OTHER", "x"); ("GOOGLE_API_KEY", "a");
                 ("GOOGLE_API_KEY_6", "f")] = ["a"; "c"] /\
  (exists rest,
     load_api_keys [("GOOGLE_API_KEY_3", "c"); ("GOOGLE_API_KEY", "a")] = "a" :: rest) /\
  load_api_keys [("GOOGLE_API_KEY_3", "your_google_api_key_here")]
  = ["your_google_api_key_here"].
Proof.
  split; [|split].
  - pose proof (load_api_keys_order
                  [("GOOGLE_API_KEY_3", "c"); ("OTHER", "x"); ("GOOGLE_API_KEY", "a");
                   ("GOOGLE_API_KEY_6", "f")]) as H.
    cbv zeta in H. destruct H as (H & _). rewrite H; [reflexivity | discriminate].
  - pose proof (load_api_keys_order
                  [("GOOGLE_API_KEY_3", "c"); ("GOOGLE_API_KEY", "a")]) as H.
    cbv zeta in H. destruct H as (_ & _ & H & _).
    apply (H "a"); [reflexivity | discriminate].
  - pose proof (load_api_keys_order
                  [("GOOGLE_API_KEY_3", "your_google_api_key_here")]) as H.
    cbv zeta in H. destruct H as (_ & _ & _ & _ & H).
    apply H. right. reflexivity.
Defined.

(** X3: for a cursor inside the key list the status counts add up: the
    1-based number of the current key plus the keys remaining is the total,
    the number is between 1 and the total, and the remaining count is not
    negative. *)
Theorem api_status_consistent (w : world) (st : state) :
  cursor_in_range w st ->
  let s := get_current_api_status w st in
  current_key_index s + remaining_keys s = total_keys s /\
  1 <= current_key_index s <= total_keys s /\
  0 <= remaining_keys s < total_keys s /\
  (remaining_keys s = 0 <-> current_api_key_index st = Py.llen (API_KEYS w) - 1).
Proof.
  unfold cursor_in_range, get_current_api_status. cbn. lia.
Qed.

Lemma api_status_consistent_witness :
  let W := Scenario.always_rate_limited 5 in
  let ST := snd (generate_summary_with_retry W Scenario.first_model "p" initial_state) in
  cursor_in_range W ST /\
  current_key_index (get_current_api_status W ST)
  + remaining_keys (get_current_api_status W ST) = 5.
Proof.
  intros W ST.
  assert (Hin : cursor_in_range W ST) by (vm_compute; split; [discriminate | reflexivity]).
  pose proof (api_status_consistent W ST Hin) as (Hsum & _).
  split; [exact Hin | exact Hsum].
Defined.

End KeysAndHandles.

Section HandleCreation.
Variable w : world.
Local Open Scope list_scope.

Local Abbreviation keys := (Py.llen (API_KEYS w)).
Local Abbreviation idx := current_api_key_index.

(** what one pass adds to the trace: its call first, then no further call;
    at most one sleep, the backoff of its attempt, and then the loop goes on
    with the handle it had; a handle the loop goes on with is the old one or
    one that [create_gemini_model] built *)
Lemma attempt_body_shape (prompt : string) (a : Z) (m : model_handle) (st : state) :
  let r := attempt_body w prompt a m st in
  exists more,
    trace (snd r) = trace st ++ Generate a m prompt :: more /\
    Forall (fun e => is_generate e = false) more /\
    (sleeps more = [] \/
     (sleeps more = [BASE_DELAY * 2 ^ a] /\ a < MAX_RETRIES - 1 /\ fst r = Continue m)) /\
    (forall m', fst r = Continue m' ->
       m' = m \/ exists st2, create_gemini_model w st2 = inr m').
Proof.
  cbv zeta. unfold attempt_body.
  assert (He : forall msg, let r := handle_exception w a m msg (emit (Generate a m prompt) st) in
            exists more,
              trace (snd r) = trace st ++ Generate a m prompt :: more /\
              Forall (fun e => is_generate e = false) more /\
              (sleeps more = [] \/
               (sleeps more = [BASE_DELAY * 2 ^ a] /\ a < MAX_RETRIES - 1 /\
                fst r = Continue m)) /\
              (forall m', fst r = Continue m' ->
                 m' = m \/ exists st2, create_gemini_model w st2 = inr m')).
  { intros msg. cbv zeta. unfold handle_exception.
    destruct (is_rate_limit_error msg).
    2:{ destruct (is_bad_key_error msg); exists []; cbn [fst snd emit trace];
        (repeat split; [constructor | now left | intros m' H; discriminate H]). }
    unfold rotate_key. destruct (idx _ <? keys - 1).
    - destruct (create_gemini_model w _) as [e|m1] eqn:Hc.
      + unfold backoff_or_give_up. destruct (a <? MAX_RETRIES - 1) eqn:Ha.
        * eexists. unfold emit, set_index. cbn [fst snd trace current_api_key_index].
          split; [rewrite <- !app_assoc; cbn [app]; reflexivity|].
          split; [repeat constructor|]. split.
          -- right. apply Z.ltb_lt in Ha. now repeat split.
          -- intros m' H. injection H as <-. now left.
        * destruct (_ >? 0); eexists; unfold emit, set_index;
            cbn [fst snd trace current_api_key_index];
            (split; [rewrite <- !app_assoc; cbn [app]; reflexivity|]);
            (split; [repeat constructor|]);
            (split; [now left | intros m' H; discriminate H]).
      + eexists. unfold emit, set_index. cbn [fst snd trace current_api_key_index].
        split; [rewrite <- !app_assoc; cbn [app]; reflexivity|].
        split; [repeat constructor|]. split; [now left|].
        intros m' H. injection H as <-. right. eauto.
    - unfold backoff_or_give_up. destruct (a <? MAX_RETRIES - 1) eqn:Ha.
      + eexists. unfold emit, set_index. cbn [fst snd trace current_api_key_index].
        split; [rewrite <- !app_assoc; cbn [app]; reflexivity|].
        split; [repeat constructor|]. split.
        * right. apply Z.ltb_lt in Ha. now repeat split.
        * intros m' H. injection H as <-. now left.
      + destruct (_ >? 0); exists []; cbn [fst snd emit trace];
          (repeat split; [constructor | now left | intros m' H; discriminate H]). }
  destruct (generate_content w (invocations (trace st)) m prompt) as [msg|[r|]].
  - apply He.
  - exists []. cbn [fst snd emit trace].
    repeat split; [constructor | now left | intros m' H; discriminate H].
  - apply He.
Qed.

Lemma no_generate_invocations (more : list event) :
  Forall (fun e => is_generate e = false) more ->
  invocations more = 0%nat /\ models_used more = [] /\ prompts_sent more = [].
Proof.
  induction 1 as [|e more He _ (H1 & H2 & H3)]; [now repeat split|].
  unfold invocations, models_used, prompts_sent in *.
  destruct e; try discriminate He; cbn; now rewrite ?H1, ?H2, ?H3.
Qed.

Lemma models_used_app (t u : list event) :
  models_used (t ++ u) = models_used t ++ models_used u.
Proof. unfold models_used. apply flat_map_app. Qed.

Lemma prompts_sent_app (t u : list event) :
  prompts_sent (t ++ u) = prompts_sent t ++ prompts_sent u.
Proof. unfold prompts_sent. apply flat_map_app. Qed.

Lemma generate_alone (a : Z) (m : model_handle) (prompt : string) :
  invocations [Generate a m prompt] = 1%nat /\
  sleeps [Generate a m prompt] = [] /\
  prompts_sent [Generate a m prompt] = [prompt] /\
  models_used [Generate a m prompt] = [m].
Proof. now repeat split. Qed.

(** what a run of the loop adds to the trace *)
Lemma for_attempts_shape (prompt : string) (P : model_handle -> Prop)
    (HP : forall st2 m', create_gemini_model w st2 = inr m' -> P m')
    (attempts : list Z) :
  forall (m : model_handle) (st : state),
    P m ->
    exists added,
      trace (snd (for_attempts w prompt attempts m st)) = trace st ++ added /\
      (invocations added <= List.length attempts)%nat /\
      (attempts <> [] -> (1 <= invocations added)%nat) /\
      subsequence (sleeps added) (backoff_schedule attempts) /\
      Forall (eq prompt) (prompts_sent added) /\
      Forall P (models_used added).
Proof.
  induction attempts as [|a rest IH]; intros m st Pm; cbn [for_attempts].
  - exists []. cbn [snd]. rewrite app_nil_r.
    repeat split; [cbn; lia | congruence | constructor | constructor | constructor].
  - destruct (attempt_body_shape prompt a m st) as (more & Ht & Hng & Hs & Hm).
    destruct (no_generate_invocations more Hng) as (Hi0 & Hm0 & Hp0).
    destruct (generate_alone a m prompt) as (G1 & G2 & G3 & G4).
    destruct (attempt_body w prompt a m st) as [[result|m'] st1]; cbn [fst snd] in *.
    + exists (Generate a m prompt :: more). split; [exact Ht|].
      change (Generate a m prompt :: more) with ([Generate a m prompt] ++ more).
      rewrite invocations_app, sleeps_app, prompts_sent_app, models_used_app.
      rewrite Hi0, Hm0, Hp0, G1, G2, G3, G4. cbn [app List.length].
      split; [lia|]. split; [lia|]. split.
      * destruct Hs as [-> | (_ & _ & H)]; [constructor | discriminate H].
      * split; repeat constructor. exact Pm.
    + assert (Pm' : P m').
      { destruct (Hm m' eq_refl) as [-> | [st2 Hc]]; [exact Pm | exact (HP _ _ Hc)]. }
      destruct (IH m' st1 Pm') as (added & Ht2 & Hle & _ & Hsub & Hps & Hms).
      exists (([Generate a m prompt] ++ more) ++ added).
      split; [rewrite Ht2, Ht, <- !app_assoc; reflexivity|].
      rewrite !invocations_app, !sleeps_app, !prompts_sent_app, !models_used_app.
      rewrite Hi0, Hm0, Hp0, G1, G2, G3, G4. cbn [app List.length].
      split; [lia|]. split; [lia|]. split.
      * unfold backoff_schedule. cbn [flat_map]. fold (backoff_schedule rest).
        destruct Hs as [-> | (-> & Ha & _)].
        -- cbn [app]. destruct (a <? MAX_RETRIES - 1); [|exact Hsub].
           cbn [app]. now apply sub_skip.
        -- replace (a <? MAX_RETRIES - 1) with true by (symmetry; now apply Z.ltb_lt).
           cbn [app]. now apply sub_take.
      * split; constructor; auto.
Qed.

End HandleCreation.

(** X4: while GEMINI_API_KEY is set, [create_gemini_model] binds the handle
    to that key whatever the cursor is, so every call of a run that starts
    with such a handle is made with that key: a rotation moves the cursor
    but does not change the key in use. *)
Theorem override_key_is_always_used (w : world) (k : string) :
  getenv (environ w) "GEMINI_API_KEY" = Some k ->
  k <> EmptyString ->
  (forall st,
     create_gemini_model w st
     = match genai_error w k with
       | Some e => inl e
       | None => inr {| api_key := k; model_name := "gemini-1.5-flash" |}
       end)
  /\ (forall model prompt st,
        api_key model = k ->
        exists added,
          trace (snd (generate_summary_with_retry w model prompt st))
          = (trace st ++ added)%list /\
          Forall (fun m => api_key m = k) (models_used added)).
Proof.
  intros Hk Hne.
  assert (Hc : forall st,
             create_gemini_model w st
             = match genai_error w k with
               | Some e => inl e
               | None => inr {| api_key := k; model_name := "gemini-1.5-flash" |}
               end).
  { intros st. unfold create_gemini_model. rewrite Hk.
    destruct k; [congruence | reflexivity]. }
  split; [exact Hc|].
  intros model prompt st Hm. unfold generate_summary_with_retry.
  destruct (for_attempts_shape w prompt (fun m => api_key m = k)) with
    (attempts := Py.range MAX_RETRIES) (m := model) (st := st)
    as (added & Ht & _ & _ & _ & _ & Hms); [|exact Hm|eauto].
  intros st2 m' H. rewrite Hc in H. destruct (genai_error w k); [discriminate|].
  now injection H as <-.
Qed.

Lemma override_key_is_always_used_witness :
  let W := Scenario.with_override in
  let out := generate_summary_with_retry W Scenario.override_model "p" initial_state in
  current_api_key_index (snd out) = 3 /\
  exists added,
    trace (snd out) = added /\
    Forall (fun m => api_key m = "override-key") (models_used added).
Proof.
  intros W out. split; [reflexivity|].
  destruct (override_key_is_always_used W "override-key") as [_ H];
    [reflexivity | discriminate |].
  destruct (H Scenario.override_model "p" initial_state eq_refl) as (added & Ht & Hall).
  exists added. split; [exact Ht | exact Hall].
Defined.

(** X5: while GEMINI_API_KEY is unset or empty, [create_gemini_model] binds
    the handle to the key the cursor points at; with the cursor at or past
    the end of the list it raises the exhausted-keys exception instead. *)
Theorem handle_follows_cursor (w : world) (st : state) :
  Py.truthy_opt (getenv (environ w) "GEMINI_API_KEY") = false ->
  (cursor_in_range w st ->
   exists k,
     Py.index (API_KEYS w) (current_api_key_index st) = Some k /\
     create_gemini_model w st
     = match genai_error w k with
       | Some e => inl e
       | None => inr {| api_key := k; model_name := "gemini-1.5-flash" |}
       end)
  /\ (Py.llen (API_KEYS w) <= current_api_key_index st ->
      create_gemini_model w st
      = inl "All API keys have been exhausted. Please add more keys or wait for quota reset.").
Proof.
  intros Hno.
  assert (Hpool : forall from_pool : string + string,
             match getenv (environ w) "GEMINI_API_KEY" with
             | Some k => if Py.truthy k then inr k else from_pool
             | None => from_pool
             end = from_pool).
  { intros from_pool. destruct (getenv (environ w) "GEMINI_API_KEY") as [k|];
      [|reflexivity]. cbn in Hno. now rewrite Hno. }
  split.
  - intros Hin. unfold cursor_in_range in Hin.
    destruct (PyFacts.index_in_range (API_KEYS w) _ Hin) as [k Hk].
    exists k. split; [exact Hk|].
    unfold create_gemini_model. rewrite Hpool, Hk.
    now replace (current_api_key_index st <? Py.llen (API_KEYS w)) with true
      by (symmetry; apply Z.ltb_lt; lia).
  - intros Hout. unfold create_gemini_model. rewrite Hpool.
    now replace (current_api_key_index st <? Py.llen (API_KEYS w)) with false
      by (symmetry; apply Z.ltb_ge; lia).
Qed.

Lemma handle_follows_cursor_witness :
  let W := Scenario.always_rate_limited 3 in
  let ST := snd (attempt_body W "p" 0 Scenario.first_model initial_state) in
  create_gemini_model W ST = inr Scenario.second_model /\
  create_gemini_model W {| current_api_key_index := 3; trace := [] |}
  = inl "All API keys have been exhausted. Please add more keys or wait for quota reset.".
Proof.
  intros W ST. split.
  - destruct (handle_follows_cursor W ST eq_refl) as [H _].
    destruct H as (k & Hk & Hc);
      [vm_compute; split; [discriminate | reflexivity]|].
    vm_compute in Hk. injection Hk as <-. exact Hc.
  - destruct (handle_follows_cursor W {| current_api_key_index := 3; trace := [] |}
                eq_refl) as [_ H].
    apply H. vm_compute. discriminate.
Defined.

(** ** What every run of the retry loop keeps to *)

(** X6: whatever the completion service answers, one run of
    [generate_summary_with_retry] calls it at least once and at most three
    times, always with the prompt it was given, and the delays it sleeps
    are taken in order from the schedule 1, 2: it never sleeps more than
    three units in all. *)
Theorem retry_effort_is_bounded (w : world) (model : model_handle) (prompt : string)
    (st : state) :
  exists added,
    trace (snd (generate_summary_with_retry w model prompt st))
    = (trace st ++ added)%list /\
    (1 <= invocations added <= 3)%nat /\
    subsequence (sleeps added) [1; 2] /\
    fold_right Z.add 0 (sleeps added) <= 3 /\
    Forall (eq prompt) (prompts_sent added).
Proof.
  unfold generate_summary_with_retry.
  destruct (for_attempts_shape w prompt (fun _ => True) (fun _ _ _ => I)
              (Py.range MAX_RETRIES) model st I)
    as (added & Ht & Hle & Hge & Hsub & Hps & _).
  exists added. split; [exact Ht|].
  split; [split; [apply Hge; discriminate | exact Hle]|].
  change (backoff_schedule (Py.range MAX_RETRIES)) with [1; 2] in Hsub.
  split; [exact Hsub|]. split; [|exact Hps].
  inversion Hsub as [l0 E0 | s0 l0 y0 H1 E0 | s0 l0 x0 H1 E0]; subst; cbn; try lia;
    inversion H1 as [l1 E1 | s1 l1 y1 H2 E1 | s1 l1 x1 H2 E1]; subst; cbn; try lia;
    inversion H2; subst; cbn; lia.
Qed.

Section RunResults.
Variable w : world.
Local Open Scope list_scope.

Local Abbreviation keys := (Py.llen (API_KEYS w)).
Local Abbreviation idx := current_api_key_index.

Lemma classify_response_cases (r : response) :
  (Py.truthy (text r) = true /\ classify_response r = text r) \/
  worded_as_error (classify_response r).
Proof.
  unfold classify_response. destruct (Py.truthy (text r)); [now left|].
  right. left. destruct (candidates r) as [|c cs]; [reflexivity|].
  destruct (finish_reason c) as [name|]; [|reflexivity].
  destruct (name =? "SAFETY")%string; reflexivity.
Qed.

Lemma handle_exception_return (a : Z) (m : model_handle) (msg : string) (st : state)
    (result : string) :
  fst (handle_exception w a m msg st) = Return result -> worded_as_error result.
Proof.
  unfold handle_exception. destruct (is_rate_limit_error msg).
  - destruct (rotate_key w st) as [[m'|] st']; cbn [fst]; [discriminate|].
    unfold backoff_or_give_up. destruct (a <? MAX_RETRIES - 1); [discriminate|].
    destruct (_ >? 0); cbn [fst]; intros H; injection H as <-; now left.
  - destruct (is_bad_key_error msg); cbn [fst]; intros H; injection H as <-.
    + now left.
    + right. apply PyFacts.prefix_refl_append.
Qed.

Lemma attempt_body_return (prompt : string) (a : Z) (m : model_handle) (st : state)
    (result : string) :
  fst (attempt_body w prompt a m st) = Return result ->
  (exists r,
     generate_content w (invocations (trace st)) m prompt = Returns (Some r) /\
     Py.truthy (text r) = true /\ result = text r) \/
  worded_as_error result.
Proof.
  unfold attempt_body.
  destruct (generate_content w (invocations (trace st)) m prompt) as [msg|[r|]].
  - intros H. right. eapply handle_exception_return, H.
  - cbn [fst]. intros H. injection H as <-.
    destruct (classify_response_cases r) as [[Ht ->] | He]; [left; eauto | now right].
  - intros H. right. eapply handle_exception_return, H.
Qed.

Lemma for_attempts_result (prompt : string) (attempts : list Z) :
  forall (m : model_handle) (st : state),
    (exists k m0 r,
       generate_content w k m0 prompt = Returns (Some r) /\
       Py.truthy (text r) = true /\
       fst (for_attempts w prompt attempts m st) = text r) \/
    worded_as_error (fst (for_attempts w prompt attempts m st)).
Proof.
  induction attempts as [|a rest IH]; intros m st; cbn [for_attempts].
  - right. now left.
  - pose proof (attempt_body_return prompt a m st) as Hr.
    destruct (attempt_body w prompt a m st) as [[result|m'] st1]; cbn [fst] in *.
    + destruct (Hr result eq_refl) as [(r & Ho & Ht & ->) | He]; [left; eauto 6 | now right].
    + apply IH.
Qed.

End RunResults.

(** X7: the string a run returns is either the text of a response some call
    returned, or a message that starts with "Error: " or, for an error the
    loop does not classify, with "Error during summarization: ". *)
Theorem result_is_text_or_error (w : world) (model : model_handle) (prompt : string)
    (st : state) :
  let out := generate_summary_with_retry w model prompt st in
  (exists k m r,
     generate_content w k m prompt = Returns (Some r) /\
     Py.truthy (text r) = true /\
     fst out = text r) \/
  worded_as_error (fst out).
Proof. apply for_attempts_result. Qed.

(** X8: with the cursor at the last key and a service that raises a
    rate-limit error on every call, the run makes its three calls with the
    handle it was given, sleeps 1 and then 2 between them, leaves the cursor
    where it is and returns the exhausted-keys message. *)
Theorem exhausted_pool_backs_off (w : world) (model : model_handle) (prompt : string)
    (st : state) :
  always_rate_limits w ->
  current_api_key_index st = Py.llen (API_KEYS w) - 1 ->
  exists line1 line2,
    generate_summary_with_retry w model prompt st
    = (msg_all_exhausted,
       {| current_api_key_index := current_api_key_index st;
          trace := (trace st ++
                    [Generate 0 model prompt; Print line1; Sleep 1;
                     Generate 1 model prompt; Print line2; Sleep 2;
                     Generate 2 model prompt])%list |}).
Proof.
  intros Hrl Hlast. unfold generate_summary_with_retry. rewrite range_MAX_RETRIES.
  destruct (loop_backs_off w Hrl prompt 0 [1; 2] model st) as [line1 E1];
    [lia | reflexivity |].
  rewrite E1. clear E1.
  match goal with |- context [for_attempts _ _ _ _ ?s] => set (st1 := s) end.
  destruct (loop_backs_off w Hrl prompt 1 [2] model st1) as [line2 E2];
    [subst st1; cbn [current_api_key_index]; lia | reflexivity |].
  rewrite E2. clear E2.
  match goal with |- context [for_attempts _ _ _ _ ?s] => set (st2 := s) end.
  rewrite (loop_gives_up w Hrl prompt 2 [] model st2)
    by (subst st2 st1; cbn [current_api_key_index]; unfold MAX_RETRIES; lia).
  exists line1, line2. subst st2 st1. cbn [current_api_key_index trace].
  rewrite <- !app_assoc. reflexivity.
Qed.

Lemma exhausted_pool_backs_off_witness :
  let W := Scenario.always_rate_limited 1 in
  let out := generate_summary_with_retry W Scenario.first_model "p" initial_state in
  fst out = msg_all_exhausted /\ sleeps (trace (snd out)) = [1; 2].
Proof.
  intros W out.
  destruct (exhausted_pool_backs_off W Scenario.first_model "p" initial_state)
    as (l1 & l2 & E).
  - intros k m p. exists Scenario.quota_message. split; reflexivity.
  - reflexivity.
  - unfold out. rewrite E. split; reflexivity.
Defined.

(** X9: a rate-limit error on the first call, a successor key and a handle
    that rebuilds, then a text from the second call: the run returns that
    text after two calls, the second with the new handle, without any sleep,
    and leaves the cursor on the successor. *)
Theorem recovery_by_rotation (w : world) (model m' : model_handle) (prompt : string)
    (st : state) (msg : string) (r : response) :
  generate_content w (invocations (trace st)) model prompt = Raises msg ->
  is_rate_limit_error msg = true ->
  current_api_key_index st < Py.llen (API_KEYS w) - 1 ->
  create_gemini_model w (set_index (current_api_key_index st + 1) st) = inr m' ->
  generate_content w (S (invocations (trace st))) m' prompt = Returns (Some r) ->
  Py.truthy (text r) = true ->
  generate_summary_with_retry w model prompt st
  = (text r,
     {| current_api_key_index := current_api_key_index st + 1;
        trace := (trace st ++
                  [Generate 0 model prompt;
                   Print (msg_switching (current_api_key_index st + 2)
                                        (Py.llen (API_KEYS w)));
                   Generate 1 m' prompt])%list |}).
Proof.
  intros Ho Hm Hlt Hc Ho2 Ht.
  unfold generate_summary_with_retry. rewrite range_MAX_RETRIES.
  cbn [for_attempts]. rewrite (body_rotates w prompt 0 model st msg m' Ho Hm Hlt Hc).
  unfold attempt_body. cbn [trace].
  rewrite invocations_app. change (invocations [_; _]) with 1%nat.
  rewrite Nat.add_1_r, Ho2. unfold classify_response. rewrite Ht.
  unfold emit. cbn [trace current_api_key_index].
  now rewrite <- app_assoc.
Qed.

Lemma recovery_by_rotation_witness :
  let W := Scenario.scripted 2 (fun k => match k with
                                         | O => Raises Scenario.quota_message
                                         | _ => Scenario.answer "a summary"
                                         end) in
  fst (generate_summary_with_retry W Scenario.first_model "p" initial_state)
  = "a summary".
Proof.
  intros W.
  rewrite (recovery_by_rotation W Scenario.first_model Scenario.second_model "p"
             initial_state Scenario.quota_message
             {| text := "a summary";
                candidates := [ {| finish_reason := Some "STOP" |} ] |});
    reflexivity.
Defined.

(** X10: a rate-limit error on the first call with the cursor at the last
    key, then a text from the second call: the run sleeps 1, calls again
    with the same handle and returns the text; the cursor stays. *)
Theorem recovery_by_backoff (w : world) (model : model_handle) (prompt : string)
    (st : state) (msg : string) (r : response) :
  generate_content w (invocations (trace st)) model prompt = Raises msg ->
  is_rate_limit_error msg = true ->
  Py.llen (API_KEYS w) - 1 <= current_api_key_index st ->
  generate_content w (S (invocations (trace st))) model prompt = Returns (Some r) ->
  Py.truthy (text r) = true ->
  exists line,
    generate_summary_with_retry w model prompt st
    = (text r,
       {| current_api_key_index := current_api_key_index st;
          trace := (trace st ++
                    [Generate 0 model prompt; Print line; Sleep 1;
                     Generate 1 model prompt])%list |}).
Proof.
  intros Ho Hm Hge Ho2 Ht.
  unfold generate_summary_with_retry. rewrite range_MAX_RETRIES.
  destruct (body_backs_off w prompt 0 model st msg Ho Hm Hge) as [line Hb];
    [reflexivity|].
  exists line. cbn [for_attempts]. rewrite Hb.
  unfold attempt_body. cbn [trace].
  rewrite invocations_app. change (invocations [_; _; _]) with 1%nat.
  rewrite Nat.add_1_r, Ho2. unfold classify_response. rewrite Ht.
  unfold emit. cbn [trace current_api_key_index].
  now rewrite <- app_assoc.
Qed.

Lemma recovery_by_backoff_witness :
  let W := Scenario.scripted 1 (fun k => match k with
                                         | O => Raises Scenario.quota_message
                                         | _ => Scenario.answer "a summary"
                                         end) in
  let out := generate_summary_with_retry W Scenario.first_model "p" initial_state in
  fst out = "a summary" /\ sleeps (trace (snd out)) = [1].
Proof.
  intros W out.
  destruct (recovery_by_backoff W Scenario.first_model "p" initial_state
              Scenario.quota_message
              {| text := "a summary";
                 candidates := [ {| finish_reason := Some "STOP" |} ] |})
    as [line E]; try reflexivity.
  unfold out. rewrite E. split; reflexivity.
Defined.

(** X11: when the rotation step has moved the cursor and then
    [create_gemini_model] raises, the cursor stays moved and the pass falls
    through to the backoff with the old handle: before the last attempt it
    sleeps and the loop goes on with the old handle; at the last attempt it
    returns the backup-keys message with the number of keys after the new
    cursor, or the exhausted-keys message when none follows. *)
Theorem failed_rebuild_keeps_old_handle (w : world) (prompt : string) (attempt : Z)
    (model : model_handle) (st : state) (msg e : string) :
  generate_content w (invocations (trace st)) model prompt = Raises msg ->
  is_rate_limit_error msg = true ->
  current_api_key_index st < Py.llen (API_KEYS w) - 1 ->
  create_gemini_model w (set_index (current_api_key_index st + 1) st) = inl e ->
  let out := attempt_body w prompt attempt model st in
  let remaining := Py.llen (API_KEYS w) - (current_api_key_index st + 1) - 1 in
  current_api_key_index (snd out) = current_api_key_index st + 1
  /\ In (Print ("Failed to switch API key: " ++ e)) (trace (snd out))
  /\ (attempt < MAX_RETRIES - 1 ->
      fst out = Continue model /\
      sleeps (trace (snd out)) = (sleeps (trace st) ++ [BASE_DELAY * 2 ^ attempt])%list)
  /\ (MAX_RETRIES - 1 <= attempt ->
      sleeps (trace (snd out)) = sleeps (trace st) /\
      fst out = Return (if remaining >? 0 then msg_backup_remaining remaining
                        else msg_all_exhausted)).
Proof.
  intros Ho Hm Hlt Hc out remaining. subst out remaining.
  unfold attempt_body. rewrite Ho. unfold handle_exception. rewrite Hm.
  unfold rotate_key. cbn [emit set_index current_api_key_index trace].
  replace (current_api_key_index st <? Py.llen (API_KEYS w) - 1) with true
    by (symmetry; apply Z.ltb_lt; lia).
  erewrite create_gemini_model_index_only; [rewrite Hc | reflexivity].
  unfold backoff_or_give_up. destruct (attempt <? MAX_RETRIES - 1) eqn:Ha.
  - apply Z.ltb_lt in Ha. unfold emit, set_index.
    cbn [fst snd trace current_api_key_index].
    split; [reflexivity|]. split.
    + rewrite !in_app_iff. left. left. right. now left.
    + split; [|lia]. intros _. split; [reflexivity|].
      rewrite !sleeps_app. cbn. now rewrite !app_nil_r.
  - apply Z.ltb_ge in Ha. unfold emit, set_index.
    cbn [fst snd trace current_api_key_index].
    assert (Hs : sleeps (((trace st ++ [Generate attempt model prompt])
                          ++ [Print (msg_switching (current_api_key_index st + 1 + 1)
                                                   (Py.llen (API_KEYS w)))])
                         ++ [Print ("Failed to switch API key: " ++ e)])
                 = sleeps (trace st)).
    { rewrite !sleeps_app. cbn. now rewrite !app_nil_r. }
    destruct (_ >? 0); cbn [fst snd trace current_api_key_index];
      (split; [reflexivity|]);
      (split; [rewrite !in_app_iff; right; now left|]);
      (split; [lia | intros _; now split]).
Qed.

Lemma failed_rebuild_keeps_old_handle_witness :
  let W := Scenario.second_key_rejected in
  let out := attempt_body W "p" 2 Scenario.first_model initial_state in
  fst out = Return "Error: API quota exceeded. 1 backup keys remaining but all failed. Please try again later." /\
  current_api_key_index (snd out) = 1.
Proof.
  intros W out.
  destruct (failed_rebuild_keeps_old_handle W "p" 2 Scenario.first_model initial_state
              Scenario.quota_message "configure failed")
    as (Hidx & _ & _ & Hlast); try reflexivity.
  destruct Hlast as [_ Hmsg]; [reflexivity|].
  split; [exact Hmsg | exact Hidx].
Defined.

(** ** Classification of the error message *)

Section Classification.
Import Py PyFacts.

Lemma prefix_lower (k s : string) :
  prefix k s = true -> prefix (lower k) (lower s) = true.
Proof.
  revert s. induction k as [|c k IH]; intros s H.
  - now destruct s.
  - destruct s as [|d s]; [discriminate|]. cbn in H |- *.
    destruct (ascii_dec c d) as [->|]; [|discriminate].
    destruct (ascii_dec (lower_ascii d) (lower_ascii d)); [now apply IH | congruence].
Qed.

Lemma contains_lower (k s : string) :
  contains k s = true -> contains (lower k) (lower s) = true.
Proof.
  induction s as [|d s IH]; intros H.
  - cbn [contains] in H. rewrite orb_false_r in H.
    apply prefix_lower in H. cbn [contains lower] in *. now rewrite H.
  - cbn [contains] in H. apply orb_true_iff in H as [H|H].
    + apply prefix_lower in H. cbn [contains lower] in *. now rewrite H.
    + cbn [contains lower]. rewrite (IH H). apply orb_true_r.
Qed.

Lemma any_in_intro (keywords : list string) (k s : string) :
  In k keywords -> contains k s = true -> any_in keywords s = true.
Proof.
  intros Hin Hc. unfold any_in. apply existsb_exists. eauto.
Qed.

(** X12: the classification does not look at the case of letters: a message
    that holds "429", "quota" or "rate limit" in any mix of upper and lower
    case is a rate-limit error, one that holds "400", "api key", "invalid"
    or "expired" in any case is a bad-key error; and a message that is both
    is handled as a rate-limit error: the pass never answers it with the
    bad-key message. *)
Theorem classification_ignores_case (msg kw : string) :
  contains kw msg = true ->
  (In (lower kw) rate_limit_keywords -> is_rate_limit_error msg = true)
  /\ (In (lower kw) bad_key_keywords -> is_bad_key_error msg = true)
  /\ (In (lower kw) rate_limit_keywords ->
      forall w attempt model st,
        fst (handle_exception w attempt model msg st) <> Return msg_bad_key).
Proof.
  intros Hc. apply contains_lower in Hc.
  assert (Hrl : In (lower kw) rate_limit_keywords -> is_rate_limit_error msg = true).
  { intros Hin. unfold is_rate_limit_error. eapply any_in_intro; eauto. }
  split; [exact Hrl|]. split.
  - intros Hin. unfold is_bad_key_error. eapply any_in_intro; eauto.
  - intros Hin w attempt model st. unfold handle_exception. rewrite (Hrl Hin).
    destruct (rotate_key w st) as [[m'|] st']; cbn [fst]; [discriminate|].
    unfold backoff_or_give_up. destruct (attempt <? MAX_RETRIES - 1); [discriminate|].
    destruct (_ >? 0); cbn [fst]; intros H;
      apply (f_equal (fun c => match c with
                               | Return s => prefix "Error: I" s
                               | Continue _ => false
                               end)) in H;
      discriminate H.
Qed.

Lemma classification_ignores_case_witness :
  is_rate_limit_error "Resource QUOTA exhausted: Invalid request" = true /\
  is_bad_key_error "Resource QUOTA exhausted: Invalid request" = true /\
  fst (handle_exception (Scenario.always_rate_limited 1) 2 Scenario.first_model
         "Resource QUOTA exhausted: Invalid request" initial_state)
  <> Return msg_bad_key.
Proof.
  destruct (classification_ignores_case
              "Resource QUOTA exhausted: Invalid request" "QUOTA" eq_refl)
    as (Hrl & _ & Hnot).
  destruct (classification_ignores_case
              "Resource QUOTA exhausted: Invalid request" "Invalid" eq_refl)
    as (_ & Hbad & _).
  split; [apply Hrl; cbn; auto|]. split; [apply Hbad; cbn; auto|].
  apply Hnot. cbn. auto.
Defined.

End Classification.

(** ** Transcript retrieval *)

(** X13: [get_youtube_transcript] never moves the cursor and never calls
    the completion service. When it returns a text, nothing was printed and
    the text is the fragments of the source joined by single spaces, asked
    for the extracted identifier in the given language alone, or, without a
    language, in all the languages the source lists (at least one). When it
    returns [None] it has printed at most one line. An empty language code
    counts as none. *)
Theorem transcript_retrieval_outcomes (w : world) (video_url : string)
    (language_code : option string) (st : state) :
  let out := get_youtube_transcript w video_url language_code st in
  current_api_key_index (snd out) = current_api_key_index st
  /\ invocations (trace (snd out)) = invocations (trace st)
  /\ (forall t, fst out = Some t ->
        snd out = st /\
        exists id langs items,
          extract_video_id video_url = Some id /\
          get_transcript w id langs = SourceOk items /\
          t = Py.join " " items /\
          langs <> [] /\
          (forall code, language_code = Some code -> code <> EmptyString ->
             langs = [code]) /\
          (Py.truthy_opt language_code = false ->
             list_transcripts w id = SourceOk langs))
  /\ (fst out = None -> snd out = st \/ exists line, snd out = emit (Print line) st)
  /\ get_youtube_transcript w video_url (Some EmptyString) st
     = get_youtube_transcript w video_url None st.
Proof.
  cbv zeta.
  assert (Hemit : forall line,
             invocations (trace (emit (Print line) st)) = invocations (trace st)).
  { intros line. unfold emit. cbn [trace]. rewrite invocations_app. cbn. lia. }
  unfold get_youtube_transcript.
  destruct (extract_video_id video_url) as [id|];
    [|cbn [fst snd]; repeat split; eauto; discriminate].
  split; [|split; [|split; [|split; [|reflexivity]]]].
  - destruct (Py.truthy_opt language_code).
    + destruct language_code as [code|]; [|reflexivity].
      now destruct (get_transcript w id [code]).
    + destruct (list_transcripts w id) as [e|[|c l]]; try reflexivity.
      now destruct (get_transcript w id (c :: l)).
  - destruct (Py.truthy_opt language_code).
    + destruct language_code as [code|]; [|reflexivity].
      destruct (get_transcript w id [code]); cbn [snd]; auto.
    + destruct (list_transcripts w id) as [e|[|c l]]; cbn [snd]; auto.
      destruct (get_transcript w id (c :: l)); cbn [snd]; auto.
  - intros t. destruct (Py.truthy_opt language_code) eqn:Ht.
    + destruct language_code as [code|]; [|discriminate].
      destruct (get_transcript w id [code]) as [e|items] eqn:Hg; [discriminate|].
      cbn [fst snd]. intros H. injection H as <-. split; [reflexivity|].
      exists id, [code], items.
      split; [reflexivity|]. split; [exact Hg|]. split; [reflexivity|].
      split; [discriminate|]. split.
      * intros code' H _. now injection H as <-.
      * intros H. cbn in Ht, H. congruence.
    + destruct (list_transcripts w id) as [e|[|c l]] eqn:Hl; try discriminate.
      destruct (get_transcript w id (c :: l)) as [e|items] eqn:Hg; [discriminate|].
      cbn [fst snd]. intros H. injection H as <-. split; [reflexivity|].
      exists id, (c :: l), items.
      split; [reflexivity|]. split; [exact Hg|]. split; [reflexivity|].
      split; [discriminate|]. split.
      * intros code -> Hne. destruct code; [congruence | discriminate Ht].
      * intros _. exact Hl.
  - intros _. destruct (Py.truthy_opt language_code).
    + destruct language_code as [code|]; [|now left].
      destruct (get_transcript w id [code]); cbn [snd]; eauto.
    + destruct (list_transcripts w id) as [e|[|c l]]; cbn [snd]; eauto.
      destruct (get_transcript w id (c :: l)); cbn [snd]; eauto.
Qed.

Lemma transcript_retrieval_outcomes_witness :
  let W := Scenario.with_transcripts (fun _ => Scenario.safety_blocked) in
  get_youtube_transcript W "https://youtu.be/dQw4w9WgXcQ" (Some "en") initial_state
  = (Some "hello world", initial_state) /\
  fst (get_youtube_transcript W "https://youtu.be/dQw4w9WgXcQ" (Some "fr") initial_state)
  = None.
Proof.
  intros W. split; [|reflexivity].
  destruct (transcript_retrieval_outcomes W "https://youtu.be/dQw4w9WgXcQ" (Some "en")
              initial_state) as (_ & _ & Hsome & _).
  destruct (Hsome "hello world" eq_refl) as (Hst & _).
  rewrite <- Hst at 2. reflexivity.
Defined.

(** ** The routes *)

Section Routes.
Variable w : world.
Local Open Scope list_scope.

Lemma emit_print_quiet (line : string) (st : state) :
  invocations (trace (emit (Print line) st)) = invocations (trace st) /\
  current_api_key_index (emit (Print line) st) = current_api_key_index st.
Proof.
  split; [|reflexivity]. unfold emit. cbn [trace]. rewrite invocations_app. cbn. lia.
Qed.

Lemma get_youtube_transcript_quiet (video_url : string) (language_code : option string)
    (st : state) :
  let out := get_youtube_transcript w video_url language_code st in
  invocations (trace (snd out)) = invocations (trace st) /\
  current_api_key_index (snd out) = current_api_key_index st.
Proof.
  cbv zeta. unfold get_youtube_transcript.
  destruct (extract_video_id video_url) as [id|]; [|apply emit_print_quiet].
  destruct (Py.truthy_opt language_code).
  - destruct language_code as [code|]; [|now split].
    destruct (get_transcript w id [code]); [apply emit_print_quiet | now split].
  - destruct (list_transcripts w id) as [e|[|c l]];
      [apply emit_print_quiet | now split |].
    destruct (get_transcript w id (c :: l)); [apply emit_print_quiet | now split].
Qed.

Lemma route_transcript_quiet (video_url : Route.value)
    (language_code : option Route.value) (st : state) :
  let out := Route.get_youtube_transcript w video_url language_code st in
  invocations (trace (snd out)) = invocations (trace st) /\
  current_api_key_index (snd out) = current_api_key_index st.
Proof.
  cbv zeta. unfold Route.get_youtube_transcript.
  destruct video_url as [url|o]; [|apply emit_print_quiet].
  destruct language_code as [[code|o]|]; try apply get_youtube_transcript_quiet.
  destruct (Route.truth o); [|apply get_youtube_transcript_quiet].
  destruct (extract_video_id url) as [id|]; [|apply emit_print_quiet].
  destruct (Route.language_answer o id); [apply emit_print_quiet | now split].
Qed.

(** a transcript comes back only for a URL that is a string *)
Lemma route_transcript_some (video_url : Route.value)
    (language_code : option Route.value) (st : state) (t : string) :
  fst (Route.get_youtube_transcript w video_url language_code st) = Some t ->
  exists url, video_url = Route.Str url.
Proof.
  destruct video_url as [url|o]; [eauto | discriminate].
Qed.

(** on strings the two entry points of the routes are the functions of the
    module *)
Lemma route_entry_points_on_strings (transcript : option string)
    (model : model_handle) (s d tr url : string) (code : option string) (st : state) :
  Route.summarize_transcript_advanced w transcript model
    (Route.Str s) (Route.Str d) (Route.Str tr) st
  = inr (summarize_transcript_advanced w transcript model s d tr st)
  /\ Route.get_youtube_transcript w (Route.Str url) (option_map Route.Str code) st
     = get_youtube_transcript w url code st.
Proof.
  split.
  - unfold Route.summarize_transcript_advanced, summarize_transcript_advanced.
    destruct transcript as [t|]; [|reflexivity].
    destruct (negb (Py.truthy t)); reflexivity.
  - destruct code; reflexivity.
Qed.


(** an answer of the advanced entry point for a transcript that is not
    empty is the run of the loop on the prompt of the parts *)
Lemma route_summarize_returns (t : string) (model : model_handle)
    (style detail translate : Route.value) (st : state) (run : string * state) :
  t <> EmptyString ->
  Route.summarize_transcript_advanced w (Some t) model style detail translate st
  = inr run ->
  exists si di ti,
    Route.lookup style_prompts style
      (Py.dict_get style_prompts "default" EmptyString) = inr si /\
    Route.lookup detail_instructions detail
      (Py.dict_get detail_instructions "medium" EmptyString) = inr di /\
    Route.translation translate = inr ti /\
    run = generate_summary_with_retry w model
            (Route.prompt (truncate (Route.budget detail) t) si di ti) st.
Proof.
  intros Hne. unfold Route.summarize_transcript_advanced.
  destruct t as [|c t]; [congruence|]. cbn [negb Py.truthy].
  destruct (Route.lookup style_prompts style _) as [e|si]; [discriminate|].
  destruct (Route.lookup detail_instructions detail _) as [e|di]; [discriminate|].
  destruct (Route.translation translate) as [e|ti]; [discriminate|].
  intros H. injection H as <-. now exists si, di, ti.
Qed.





(** X15: when /summarize answers 200, the video_url was a string, the
    transcript it fetched was not empty, and the summary field is what the
    retry loop returned for the prompt built from that transcript and the
    style, detail and translation fields (default, medium and none when
    absent); for option fields that are strings that prompt is the one of
    [summarize_transcript_advanced]. A message of the loop that begins with
    Error travels under status 200 like a summary. *)
Theorem summarize_route_success (data : Route.request) (st : state) :
  let out := Route.summarize w data st in
  Route.status (fst out) = 200 ->
  exists video_url t st1 model run,
    Route.required data "video_url" = Some (Route.Str video_url) /\
    Route.get_youtube_transcript w (Route.Str video_url)
      (Route.field data "language_code") st = (Some t, st1) /\
    match Route.field data "language_code" with
    | None => get_youtube_transcript w video_url None st = (Some t, st1)
    | Some (Route.Str code) =>
        get_youtube_transcript w video_url (Some code) st = (Some t, st1)
    | Some (Route.Other _) => True
    end /\
    t <> EmptyString /\
    create_gemini_model w st1 = inr model /\
    let summary_style := Route.field_or data "summary_style" "default" in
    let detail_level := Route.field_or data "detail_level" "medium" in
    let translate_to := Route.field_or data "translate_to" "none" in
    out = (Route.jsonify [("summary", Route.JStr (fst run))], snd run) /\
    (exists si di ti,
       Route.lookup style_prompts summary_style
         (Py.dict_get style_prompts "default" EmptyString) = inr si /\
       Route.lookup detail_instructions detail_level
         (Py.dict_get detail_instructions "medium" EmptyString) = inr di /\
       Route.translation translate_to = inr ti /\
       run = generate_summary_with_retry w model
               (Route.prompt (truncate (Route.budget detail_level) t) si di ti) st1) /\
    (forall s d tr,
       summary_style = Route.Str s -> detail_level = Route.Str d ->
       translate_to = Route.Str tr ->
       run = generate_summary_with_retry w model
               (advanced_prompt (truncate (max_transcript_length d) t) s d tr) st1).
Proof.
  cbv zeta. unfold Route.summarize.
  destruct (Route.required data "video_url") as [url|]; [|intros H; discriminate H].
  destruct (Route.get_youtube_transcript w url (Route.field data "language_code") st)
    as [transcript st1] eqn:Hg.
  destruct transcript as [[|c t]|]; cbn [negb Py.truthy_opt Py.truthy];
    try (intros H; discriminate H).
  destruct (create_gemini_model w st1) as [e|model] eqn:Hc; [intros H; discriminate H|].
  destruct (Route.summarize_transcript_advanced w (Some (String c t)) model _ _ _ st1)
    as [e|run] eqn:Hs; [intros H; discriminate H|].
  intros _.
  destruct (route_transcript_some url (Route.field data "language_code") st (String c t))
    as [u ->]; [now rewrite Hg|].
  exists u, (String c t), st1, model, run.
  split; [reflexivity|]. split; [exact Hg|]. split.
  { unfold Route.get_youtube_transcript in Hg.
    destruct (Route.field data "language_code") as [[code|o]|]; [exact Hg | exact I | exact Hg]. }
  split; [discriminate|]. split; [exact Hc|].
  split; [now destruct run|].
  split; [apply (route_summarize_returns (String c t) model _ _ _ st1 run);
          [discriminate | exact Hs]|].
  intros s d tr Es Ed Et. rewrite Es, Ed, Et in Hs.
  rewrite (proj1 (route_entry_points_on_strings _ _ _ _ _ EmptyString None _)) in Hs.
  injection Hs as <-. reflexivity.
Qed.

End Routes.


Lemma summarize_route_success_witness :
  let W := Scenario.with_transcripts (fun _ => Scenario.safety_blocked) in
  let out := Route.summarize W [("video_url", Route.Str "https://youtu.be/dQw4w9WgXcQ")]
               initial_state in
  Route.status (fst out) = 200 /\
  Route.body (fst out)
  = Route.JObj [("summary", Route.JStr "Error: Content blocked by safety filter.")].
Proof.
  intros W out.
  assert (H200 : Route.status (fst out) = 200) by reflexivity.
  destruct (summarize_route_success W
              [("video_url", Route.Str "https://youtu.be/dQw4w9WgXcQ")]
              initial_state H200) as (url & t & st1 & model & run & _).
  split; [exact H200|]. unfold out. reflexivity.
Defined.

Section RouteFields.
Variable w : world.
Local Open Scope list_scope.

Lemma field_or_absent (data : Route.request) (k d : string) :
  Route.field data k = None -> Route.field_or data k d = Route.Str d.
Proof. unfold Route.field_or. now intros ->. Qed.

Lemma contains_skip_l (sub a s : string) :
  Py.contains sub s = true -> Py.contains sub (a ++ s)%string = true.
Proof.
  intros H. induction a as [|c a IH]; [exact H|].
  cbn [append Py.contains]. rewrite IH. apply orb_true_r.
Qed.

(** X16: a request to /summarize that leaves out summary_style,
    detail_level and translate_to is served as one that sends default,
    medium and none. *)
Theorem summarize_route_defaults (data : Route.request) (st : state) :
  Route.field data "summary_style" = None ->
  Route.field data "detail_level" = None ->
  Route.field data "translate_to" = None ->
  Route.summarize w data st
  = Route.summarize w (("summary_style", Route.Str "default")
                       :: ("detail_level", Route.Str "medium")
                       :: ("translate_to", Route.Str "none") :: data) st.
Proof.
  intros Hs Hd Ht. unfold Route.summarize, Route.required, Route.field_or.
  cbn [Route.field String.eqb Ascii.eqb Bool.eqb].
  now rewrite Hs, Hd, Ht.
Qed.

(** X17: /ask-question answers 400 and changes nothing when the question
    or the summary is missing or false (an empty string), the question
    being looked at first; and its answer depends on no other field of the
    request: video_url is read and ignored. *)
Theorem ask_question_fields (data : Route.request) (st : state) :
  (Route.required data "question" = None ->
   Route.ask_question w data st = (Route.json_error "question is required" 400, st))
  /\ (Route.required data "question" <> None ->
      Route.required data "summary" = None ->
      Route.ask_question w data st = (Route.json_error "summary is required" 400, st))
  /\ (forall data',
        Route.field data' "question" = Route.field data "question" ->
        Route.field data' "summary" = Route.field data "summary" ->
        Route.ask_question w data' st = Route.ask_question w data st).
Proof.
  split; [|split].
  - intros H. unfold Route.ask_question. now rewrite H.
  - intros Hq Hs. unfold Route.ask_question.
    destruct (Route.required data "question"); [now rewrite Hs | congruence].
  - intros data' Hq Hs. unfold Route.ask_question, Route.required.
    now rewrite Hq, Hs.
Qed.

(** X18: when both fields are there, /ask-question builds its handle at
    the cursor, sends one prompt that holds the summary and the question
    (as [str] gives them when they are no strings), and answers 200 with
    what the retry loop returned; when building the handle raises it answers
    500 without calling the completion service. *)
Theorem ask_question_answer (data : Route.request) (st : state)
    (question summary : Route.value) :
  Route.required data "question" = Some question ->
  Route.required data "summary" = Some summary ->
  let prompt := Route.question_prompt (Route.text summary) (Route.text question) in
  Py.contains (Route.text summary) prompt = true
  /\ Py.contains (Route.text question) prompt = true
  /\ (forall model,
        create_gemini_model w st = inr model ->
        let run := generate_summary_with_retry w model prompt st in
        Route.ask_question w data st
        = (Route.jsonify [("answer", Route.JStr (fst run))], snd run))
  /\ (forall e,
        create_gemini_model w st = inl e ->
        Route.status (fst (Route.ask_question w data st)) = 500 /\
        invocations (trace (snd (Route.ask_question w data st)))
        = invocations (trace st)).
Proof.
  intros Hq Hs prompt. subst prompt. split; [|split; [|split]].
  - unfold Route.question_prompt, lines. cbn [Py.join].
    repeat first [ apply PyFacts.contains_append_l
                 | rewrite PyFacts.append_assoc
                 | apply contains_skip_l ].
  - unfold Route.question_prompt, lines. cbn [Py.join].
    repeat first [ apply PyFacts.contains_append_l
                 | rewrite PyFacts.append_assoc
                 | apply contains_skip_l ].
  - intros model Hc run. subst run. unfold Route.ask_question.
    rewrite Hq, Hs, Hc. now destruct (generate_summary_with_retry w model _ st).
  - intros e Hc. unfold Route.ask_question. rewrite Hq, Hs, Hc.
    cbn [fst snd Route.status Route.json_error]. split; [reflexivity|].
    apply emit_print_quiet.
Qed.

End RouteFields.

Lemma summarize_route_defaults_witness :
  let W := Scenario.with_transcripts (fun _ => Scenario.answer "a summary") in
  Route.summarize W [("video_url", Route.Str "https://youtu.be/dQw4w9WgXcQ")]
    initial_state
  = Route.summarize W [("summary_style", Route.Str "default");
                       ("detail_level", Route.Str "medium");
                       ("translate_to", Route.Str "none");
                       ("video_url", Route.Str "https://youtu.be/dQw4w9WgXcQ")]
      initial_state.
Proof.
  intros W.
  apply (summarize_route_defaults W
           [("video_url", Route.Str "https://youtu.be/dQw4w9WgXcQ")]
           initial_state); reflexivity.
Defined.

Lemma ask_question_answer_witness :
  let W := Scenario.scripted 1 (fun _ => Scenario.answer "forty-two") in
  Route.ask_question W [("question", Route.Str "What is the answer?");
                        ("summary", Route.Str "A talk.")]
    initial_state
  = (Route.jsonify [("answer", Route.JStr "forty-two")],
     {| current_api_key_index := 0;
        trace := [Generate 0 Scenario.first_model
                    (Route.question_prompt "A talk." "What is the answer?")] |}).
Proof.
  intros W.
  destruct (ask_question_answer W
              [("question", Route.Str "What is the answer?");
               ("summary", Route.Str "A talk.")]
              initial_state (Route.Str "What is the answer?") (Route.Str "A talk.")
              eq_refl eq_refl)
    as (_ & _ & Hrun & _).
  rewrite (Hrun Scenario.first_model eq_refl). reflexivity.
Defined.

(** ** The route /video-details *)

Section VideoDetails.
Variable w : world.
Variable c : Route.catalog.

(** X19: /video-details answers 400 "Invalid YouTube video URL" to every
    request whose extracted identifier is not exactly 11 characters long,
    whatever the transcript source and the video catalog would say, and 400
    "video_url is required" when the field is missing or false; in both
    cases nothing is printed. A video_url that is true and no string makes
    [extract_video_id] raise, and the answer is 500. *)
Theorem video_details_validates_identifier (data : Route.request) (st : state) :
  (Route.required data "video_url" = None ->
   Route.video_details w c data st
   = (Route.json_error "video_url is required" 400, st))
  /\ (forall video_url id,
        Route.required data "video_url" = Some (Route.Str video_url) ->
        extract_video_id video_url = Some id ->
        Py.len id <> 11 ->
        Route.video_details w c data st
        = (Route.json_error "Invalid YouTube video URL" 400, st))
  /\ (forall o,
        Route.required data "video_url" = Some (Route.Other o) ->
        fst (Route.video_details w c data st)
        = Route.json_error ("Failed to retrieve video details: " ++ Route.url_error o)
            500).
Proof.
  split; [|split].
  - intros H. unfold Route.video_details. now rewrite H.
  - intros url id Hu He Hlen. unfold Route.video_details. rewrite Hu, He.
    replace (Py.len id =? 11) with false by (symmetry; now apply Z.eqb_neq).
    now rewrite orb_true_r.
  - intros o Hu. unfold Route.video_details. now rewrite Hu.
Qed.

(** X20: for an identifier of 11 characters whose transcript list the
    source returns, a catalog lookup that raises or finds no item does not
    fail /video-details: the answer is 200 with the languages of the list,
    the title "Video Summary" and no duration; the cursor is not moved and
    the completion service is not called. *)
Theorem video_details_survives_lookup_failure (data : Route.request) (st : state)
    (video_url id : string) (codes : list string) :
  Route.required data "video_url" = Some (Route.Str video_url) ->
  extract_video_id video_url = Some id ->
  Py.len id = 11 ->
  list_transcripts w id = SourceOk codes ->
  Route.transcript_list_truthy c id = true ->
  (forall duration title,
     Route.video_lookup c id <> SourceOk (Some (duration, title))) ->
  let out := Route.video_details w c data st in
  fst out
  = Route.jsonify
      [("title", Route.JStr "Video Summary");
       ("languages",
        Route.JList
          (map (fun code =>
                  Route.JObj [("code", Route.JStr code);
                              ("name", Route.JStr (Route.language_name c id code))])
               codes));
       ("duration", Route.JNull)]
  /\ current_api_key_index (snd out) = current_api_key_index st
  /\ invocations (trace (snd out)) = invocations (trace st).
Proof.
  intros Hu He Hlen Hl Ht Hno out. subst out.
  unfold Route.video_details. rewrite Hu, He, Hlen, Hl, Ht.
  assert (Hid : Py.truthy id = true).
  { destruct id; [discriminate Hlen | reflexivity]. }
  rewrite Hid. cbn [negb orb Z.eqb Pos.eqb].
  destruct (Route.video_lookup c id) as [e|[[d title]|]] eqn:Hv.
  - cbn [fst snd]. split; [reflexivity|]. split; [reflexivity|].
    apply emit_print_quiet.
  - exfalso. exact (Hno d title eq_refl).
  - now repeat split.
Qed.

End VideoDetails.

Lemma video_details_validates_identifier_witness :
  Route.video_details (Scenario.always_rate_limited 1) Scenario.plain_catalog
    [("video_url", Route.Str "https://youtu.be/short")] initial_state
  = (Route.json_error "Invalid YouTube video URL" 400, initial_state).
Proof.
  destruct (video_details_validates_identifier (Scenario.always_rate_limited 1)
              Scenario.plain_catalog [("video_url", Route.Str "https://youtu.be/short")]
              initial_state) as (_ & H & _).
  apply (H "https://youtu.be/short" "short"); [reflexivity | reflexivity |].
  vm_compute. discriminate.
Defined.

Lemma video_details_survives_lookup_failure_witness :
  let W := Scenario.with_transcripts (fun _ => Scenario.safety_blocked) in
  let out := Route.video_details W Scenario.plain_catalog
               [("video_url", Route.Str "https://youtu.be/dQw4w9WgXcQ")]
               initial_state in
  Route.status (fst out) = 200 /\
  invocations (trace (snd out)) = 0%nat.
Proof.
  intros W out.
  destruct (video_details_survives_lookup_failure W Scenario.plain_catalog
              [("video_url", Route.Str "https://youtu.be/dQw4w9WgXcQ")] initial_state
              "https://youtu.be/dQw4w9WgXcQ" "dQw4w9WgXcQ" ["en"; "de"])
    as (Hbody & _ & Hcalls); try reflexivity.
  - intros d title H. discriminate H.
  - split; [unfold out; rewrite Hbody; reflexivity | exact Hcalls].
Defined.

(** ** More on [extract_video_id] *)

Section ExtractMore.
Import Py PyFacts.

Lemma prefix_char (c x : ascii) (s : string) :
  prefix (char c) (String x s) = if ascii_dec c x then true else false.
Proof. unfold char. simpl. destruct (ascii_dec c x); [now destruct s | reflexivity]. Qed.

(** no piece of a split at one character holds that character *)
Lemma split_char_pieces (c : ascii) (s p : string) :
  In p (split s (char c)) -> contains (char c) p = false.
Proof.
  revert p. induction s as [|x s IH]; intros p Hin.
  - cbn in Hin. destruct Hin as [<-|[]]. reflexivity.
  - destruct (prefix (char c) (String x s)) eqn:Hp.
    + rewrite prefix_char in Hp. destruct (ascii_dec c x) as [<-|]; [|discriminate].
      change (String c s) with (char c ++ s) in Hin.
      rewrite split_cut in Hin by discriminate.
      destruct Hin as [<-|Hin]; [reflexivity | now apply IH].
    + rewrite split_pass in Hin by assumption.
      destruct (split s (char c)) as [|h t] eqn:E; [now apply split_scan_nonempty in E|].
      cbn [cons_head] in Hin. destruct Hin as [<-|Hin].
      * cbn [contains]. rewrite prefix_char in *.
        destruct (ascii_dec c x); [discriminate|]. cbn [orb].
        apply IH. now left.
      * apply IH. now right.
Qed.

Lemma index_In {A} (l : list A) (i : Z) (x : A) : index l i = Some x -> In x l.
Proof.
  unfold index. destruct ((0 <=? i) && (i <? llen l)).
  - apply nth_error_In.
  - destruct ((- llen l <=? i) && (i <? 0)); [apply nth_error_In | discriminate].
Qed.

(** X21: [extract_video_id] returns an identifier for every string, its two
    list indices are never out of range; the identifier of a URL that holds
    "v=" holds no "&", and the identifier of any other URL holds no "/". *)
Theorem extract_video_id_result (url : string) :
  exists id,
    extract_video_id url = Some id /\
    (contains "v=" url = true -> contains "&" id = false) /\
    (contains "v=" url = false -> contains "/" id = false).
Proof.
  unfold extract_video_id. destruct (contains "v=" url) eqn:Hc.
  - destruct (split_some "v=" url) as (a & b & t & E); [discriminate | assumption |].
    rewrite E, index_1.
    destruct (split b "&") as [|h t'] eqn:E'; [now apply split_scan_nonempty in E'|].
    rewrite index_0. exists h. split; [reflexivity|]. split; [|discriminate].
    intros _. apply (split_char_pieces "&" b). change (char "&") with "&".
    rewrite E'. now left.
  - destruct (split url "/") as [|h t] eqn:E; [now apply split_scan_nonempty in E|].
    assert (h :: t <> []) as Hne by discriminate.
    destruct (exists_last Hne) as (l' & x & Hl). rewrite Hl, index_last.
    exists x. split; [reflexivity|]. split; [discriminate|].
    intros _. apply (split_char_pieces "/" url). change (char "/") with "/".
    rewrite E, Hl. apply in_or_app. right. now left.
Qed.

(** X22: a string that holds neither "v=" nor "/" is returned as it is: a
    bare identifier is its own identifier, and so is the empty string. *)
Theorem extract_video_id_verbatim (s : string) :
  contains "v=" s = false ->
  contains "/" s = false ->
  extract_video_id s = Some s.
Proof.
  intros Hv Hs. unfold extract_video_id. rewrite Hv, (split_none _ _ Hs).
  apply (index_last [] s).
Qed.

Lemma extract_video_id_verbatim_witness :
  extract_video_id "dQw4w9WgXcQ" = Some "dQw4w9WgXcQ" /\
  extract_video_id EmptyString = Some EmptyString.
Proof.
  split; apply extract_video_id_verbatim; reflexivity.
Defined.

End ExtractMore.

(** ** Truncation and the prompt, for every option *)

Section PromptMore.
Import Py PyFacts.

Lemma take_append_exact (a b : string) : take (String.length a) (a ++ b) = a.
Proof. induction a as [|c a IH]; cbn; [now destruct b | now rewrite IH]. Qed.

Lemma take_all (n : nat) (s : string) : (String.length s <= n)%nat -> take n s = s.
Proof.
  revert s. induction n as [|n IH]; intros [|c s] H; cbn in *; try reflexivity; try lia.
  rewrite IH; [reflexivity | lia].
Qed.

(** X23: the transcript segment of a prompt is never longer than the budget
    of the detail level plus the three characters of the ellipsis, so never
    longer than 12003 characters; a transcript within the budget is taken as
    it is; a longer one keeps its first budget characters; and cutting a
    segment again changes nothing. *)
Theorem truncate_bounds (t detail_level : string) :
  let budget := max_transcript_length detail_level in
  let seg := truncate budget t in
  len seg <= budget + 3
  /\ len seg <= 12003
  /\ (len t <= budget -> seg = t)
  /\ slice_to budget seg = slice_to budget t
  /\ truncate budget seg = seg.
Proof.
  intros budget seg.
  assert (Hb : 0 <= budget <= 12000)
    by (subst budget; destruct (max_transcript_length_cases detail_level)
          as [-> | [-> | ->]]; lia).
  destruct (Z_le_gt_dec (len t) budget) as [Hshort | Hlong].
  - assert (Hseg : seg = t).
    { subst seg. unfold truncate.
      now replace (len t >? budget) with false
        by (symmetry; rewrite Z.gtb_ltb; apply Z.ltb_ge; lia). }
    rewrite Hseg. repeat split; try lia. unfold truncate.
    now replace (len t >? budget) with false
      by (symmetry; rewrite Z.gtb_ltb; apply Z.ltb_ge; lia).
  - destruct (truncate_long budget t (proj1 Hb) Hlong) as (Hseg & Hlen & _).
    fold seg in Hseg, Hlen. change (len ellipsis) with 3 in Hlen.
    assert (Htake : String.length (slice_to budget t) = Z.to_nat budget).
    { unfold slice_to. rewrite length_take. unfold len in Hlong. lia. }
    assert (Hslice : slice_to budget seg = slice_to budget t).
    { rewrite Hseg. unfold slice_to at 1. rewrite <- Htake. apply take_append_exact. }
    split; [lia|]. split; [lia|]. split; [lia|]. split; [exact Hslice|].
    unfold truncate at 1.
    replace (len seg >? budget) with true
      by (symmetry; rewrite Z.gtb_ltb; apply Z.ltb_lt; lia).
    now rewrite Hslice, Hseg.
Qed.

Lemma dict_get_miss (d : list (string * string)) (k default : string) :
  ~ In k (map fst d) -> dict_get d k default = default.
Proof.
  induction d as [|[k' v] rest IH]; intros H; [reflexivity|].
  cbn [dict_get]. destruct (String.eqb_spec k' k) as [->|_].
  - exfalso. apply H. now left.
  - apply IH. intros Hin. apply H. now right.
Qed.

(** X24: whatever the options, the prompt of the advanced entry point opens
    with the task line, holds the transcript segment, and ends with
    "Summary:"; with a translation target other than none it holds the
    directive "IMPORTANT: Translate the entire summary to X." where X is the
    English name of one of the eleven codes of the table, or the target as
    given when the table does not know it. *)
Theorem advanced_prompt_anatomy (seg summary_style detail_level translate_to : string) :
  let prompt := advanced_prompt seg summary_style detail_level translate_to in
  prefix "Summarize this YouTube video transcript in the requested format:" prompt
  = true
  /\ contains seg prompt = true
  /\ endswith prompt "Summary:" = true
  /\ (translate_to <> "none" ->
      contains ("IMPORTANT: Translate the entire summary to "
                ++ dict_get language_names translate_to translate_to ++ ".")
               prompt = true)
  /\ (~ In translate_to (map fst language_names) ->
      dict_get language_names translate_to translate_to = translate_to)
  /\ (translate_to = "none" ->
      prompt = advanced_prompt seg summary_style detail_level "none" /\
      translation_instruction "none" = EmptyString).
Proof.
  intros prompt. subst prompt. split; [|split; [|split; [|split; [|split]]]].
  - unfold advanced_prompt. apply prefix_refl_append.
  - unfold advanced_prompt.
    repeat first [ apply contains_append_l
                 | rewrite append_assoc
                 | apply contains_skip_l ].
  - unfold advanced_prompt, closing_cue.
    rewrite <- !append_assoc. apply endswith_append.
  - intros Hne. unfold advanced_prompt, translation_instruction.
    apply String.eqb_neq in Hne. rewrite Hne. cbn [negb].
    set (directive := "IMPORTANT: Translate the entire summary to "
                      ++ dict_get language_names translate_to translate_to ++ ".").
    repeat first [ apply contains_append_l
                 | rewrite append_assoc
                 | apply contains_skip_l ].
  - apply dict_get_miss.
  - intros ->. now split.
Qed.

Lemma advanced_prompt_anatomy_witness :
  contains "IMPORTANT: Translate the entire summary to Spanish."
    (advanced_prompt "hello world" "qa" "brief" "es") = true /\
  contains "IMPORTANT: Translate the entire summary to tlh."
    (advanced_prompt "hello world" "qa" "brief" "tlh") = true.
Proof.
  split.
  - destruct (advanced_prompt_anatomy "hello world" "qa" "brief" "es")
      as (_ & _ & _ & H & _). apply H. discriminate.
  - destruct (advanced_prompt_anatomy "hello world" "qa" "brief" "tlh")
      as (_ & _ & _ & H & _). apply H. discriminate.
Defined.

End PromptMore.

Section Options.
Import Py PyFacts.

(** X25: an option the tables do not know is served by the default: a
    style other than the five gives the prompt of the style default, and a
    detail level other than brief, medium and detailed gives the budget and
    the instruction of medium, so the call behaves as with default and
    medium. *)
Theorem unknown_options_fall_back (w : world) (transcript : option string)
    (model : model_handle) (summary_style detail_level translate_to : string)
    (st : state) :
  (~ In summary_style (map fst style_prompts) ->
   summarize_transcript_advanced w transcript model
     summary_style detail_level translate_to st
   = summarize_transcript_advanced w transcript model
       "default" detail_level translate_to st)
  /\ (~ In detail_level (map fst detail_instructions) ->
      max_transcript_length detail_level = 8000 /\
      summarize_transcript_advanced w transcript model
        summary_style detail_level translate_to st
      = summarize_transcript_advanced w transcript model
          summary_style "medium" translate_to st).
Proof.
  split.
  - intros Hs. unfold summarize_transcript_advanced, advanced_prompt.
    now rewrite (dict_get_miss style_prompts summary_style _ Hs).
  - intros Hd.
    assert (Hmax : max_transcript_length detail_level = 8000).
    { unfold max_transcript_length.
      destruct (String.eqb_spec detail_level "brief") as [->|_];
        [exfalso; apply Hd; cbn; auto|].
      destruct (String.eqb_spec detail_level "detailed") as [->|_];
        [exfalso; apply Hd; cbn; auto | reflexivity]. }
    split; [exact Hmax|].
    unfold summarize_transcript_advanced, advanced_prompt.
    rewrite Hmax, (dict_get_miss detail_instructions detail_level _ Hd).
    reflexivity.
Qed.

Lemma unknown_options_fall_back_witness :
  let W := Scenario.scripted 1 (fun _ => Scenario.answer "ok") in
  summarize_transcript_advanced W (Some "hello") Scenario.first_model
    "haiku" "Brief" "none" initial_state
  = summarize_transcript_advanced W (Some "hello") Scenario.first_model
      "default" "medium" "none" initial_state.
Proof.
  intros W.
  destruct (unknown_options_fall_back W (Some "hello") Scenario.first_model
              "haiku" "Brief" "none" initial_state) as [Hs _].
  destruct (unknown_options_fall_back W (Some "hello") Scenario.first_model
              "default" "Brief" "none" initial_state) as [_ Hd].
  rewrite Hs.
  - apply Hd. cbn. intros [H|[H|[H|[]]]]; discriminate H.
  - cbn. intros [H|[H|[H|[H|[H|[]]]]]]; discriminate H.
Defined.

Lemma append_inv_head (a b c : string) : a ++ b = a ++ c -> b = c.
Proof.
  induction a as [|x a IH]; cbn; intros H; [exact H|].
  injection H as H. now apply IH.
Qed.

(** X26: the five styles give five different prompts: for the same
    transcript segment, detail level and translation target, two different
    styles of the table never produce the same prompt. *)
Theorem styles_give_different_prompts (seg s1 s2 detail_level translate_to : string) :
  In s1 (map fst style_prompts) ->
  In s2 (map fst style_prompts) ->
  s1 <> s2 ->
  advanced_prompt seg s1 detail_level translate_to
  <> advanced_prompt seg s2 detail_level translate_to.
Proof.
  intros H1 H2 Hne H. unfold advanced_prompt in H.
  apply append_inv_head, append_inv_head, append_inv_head, append_inv_head,
    append_inv_head, append_inv_head in H.
  apply (f_equal (take 20)) in H.
  cbn [map fst style_prompts In] in H1, H2.
  repeat match goal with
         | Hin : _ \/ _ |- _ => destruct Hin as [<-|Hin]
         | Hin : False |- _ => destruct Hin
         end;
    first [ congruence | vm_compute in H; discriminate H ].
Qed.

Lemma styles_give_different_prompts_witness :
  advanced_prompt "hello" "qa" "medium" "none"
  <> advanced_prompt "hello" "timeline" "medium" "none".
Proof.
  apply styles_give_different_prompts; [cbn; auto | cbn; auto 6 | discriminate].
Defined.

End Options.

(** ** The cursor across requests *)

Section AcrossRequests.
Variable w : world.
Variable c : Route.catalog.
Local Open Scope list_scope.

Lemma run_keeps_cursor_in_range (model : model_handle) (prompt : string) (st : state) :
  cursor_in_range w st ->
  cursor_in_range w (snd (generate_summary_with_retry w model prompt st)) /\
  current_api_key_index st
  <= current_api_key_index (snd (generate_summary_with_retry w model prompt st)).
Proof.
  unfold cursor_in_range, generate_summary_with_retry. intros Hin.
  destruct (for_attempts_index w prompt (Py.range MAX_RETRIES) model st)
    as (Hle & Hlt & _).
  specialize (Hlt Hin). lia.
Qed.

Lemma route_run_keeps_cursor_in_range (transcript : option string)
    (model : model_handle) (style detail translate : Route.value) (st : state)
    (run : string * state) :
  cursor_in_range w st ->
  Route.summarize_transcript_advanced w transcript model style detail translate st
  = inr run ->
  cursor_in_range w (snd run) /\
  current_api_key_index st <= current_api_key_index (snd run).
Proof.
  intros Hin. unfold Route.summarize_transcript_advanced.
  destruct transcript as [t|];
    [|intros H; injection H as <-; cbn [snd]; split; [exact Hin | lia]].
  destruct (negb (Py.truthy t));
    [intros H; injection H as <-; cbn [snd]; split; [exact Hin | lia]|].
  destruct (Route.lookup style_prompts style _) as [e|si]; [discriminate|].
  destruct (Route.lookup detail_instructions detail _) as [e|di]; [discriminate|].
  destruct (Route.translation translate) as [e|ti]; [discriminate|].
  intros H. injection H as <-. now apply run_keeps_cursor_in_range.
Qed.

(** X27: no request moves the cursor out of the key list or back: after
    /summarize, /ask-question and /video-details a cursor that pointed at a
    key still points at a key, and not at an earlier one; /video-details
    leaves it where it was. This holds for every request, also one whose
    fields are no strings. *)
Theorem routes_keep_cursor_in_range (data : Route.request) (st : state) :
  cursor_in_range w st ->
  (cursor_in_range w (snd (Route.summarize w data st)) /\
   current_api_key_index st <= current_api_key_index (snd (Route.summarize w data st)))
  /\ (cursor_in_range w (snd (Route.ask_question w data st)) /\
      current_api_key_index st
      <= current_api_key_index (snd (Route.ask_question w data st)))
  /\ current_api_key_index (snd (Route.video_details w c data st))
     = current_api_key_index st.
Proof.
  intros Hin. split; [|split].
  - unfold Route.summarize.
    destruct (Route.required data "video_url") as [url|]; [|cbn [snd]; split; [exact Hin | lia]].
    pose proof (route_transcript_quiet w url (Route.field data "language_code") st)
      as Hq. cbv zeta in Hq. destruct Hq as [_ Hq].
    destruct (Route.get_youtube_transcript w url (Route.field data "language_code") st)
      as [transcript st1]. cbn [snd] in Hq.
    assert (Hin1 : cursor_in_range w st1) by (unfold cursor_in_range in *; lia).
    destruct (negb (Py.truthy_opt transcript)); [cbn [snd]; split; [exact Hin1 | lia]|].
    destruct (create_gemini_model w st1) as [e|model].
    + cbn [snd]. unfold cursor_in_range, emit in *. cbn [current_api_key_index]. lia.
    + destruct (Route.summarize_transcript_advanced w transcript model _ _ _ st1)
        as [e|[summary st2]] eqn:Hs.
      * cbn [snd]. unfold cursor_in_range, emit in *. cbn [current_api_key_index]. lia.
      * destruct (route_run_keeps_cursor_in_range _ _ _ _ _ _ _ Hin1 Hs) as [H1 H2].
        cbn [snd] in *. split; [exact H1 | lia].
  - unfold Route.ask_question.
    destruct (Route.required data "question") as [q|]; [|cbn [snd]; split; [exact Hin | lia]].
    destruct (Route.required data "summary") as [s|]; [|cbn [snd]; split; [exact Hin | lia]].
    destruct (create_gemini_model w st) as [e|model].
    + cbn [snd]. unfold cursor_in_range, emit in *. cbn [current_api_key_index]. lia.
    + pose proof (run_keeps_cursor_in_range model
                    (Route.question_prompt (Route.text s) (Route.text q)) st Hin)
        as [H1 H2].
      destruct (generate_summary_with_retry w model _ st) as [answer st2].
      cbn [snd] in *. split; [exact H1 | lia].
  - unfold Route.video_details.
    destruct (Route.required data "video_url") as [[url|o]|]; [|reflexivity|reflexivity].
    destruct (extract_video_id url) as [id|]; [|reflexivity].
    destruct (negb (Py.truthy id) || negb (Py.len id =? 11)); [reflexivity|].
    destruct (list_transcripts w id) as [e|codes]; [reflexivity|].
    destruct (negb (Route.transcript_list_truthy c id)); [reflexivity|].
    destruct (Route.video_lookup c id) as [e|[[d title]|]]; reflexivity.
Qed.

(** X28: a request is served with the key the cursor points at, the one
    earlier requests left it on: without the override variable and with a
    handle that builds, the first call /ask-question makes is made with the
    key at the cursor and carries the prompt of the question. *)
Theorem request_starts_at_cursor (data : Route.request) (st : state)
    (question summary : Route.value) :
  Route.required data "question" = Some question ->
  Route.required data "summary" = Some summary ->
  Py.truthy_opt (getenv (environ w) "GEMINI_API_KEY") = false ->
  genai_never_fails w ->
  cursor_in_range w st ->
  exists k tail,
    Py.index (API_KEYS w) (current_api_key_index st) = Some k /\
    trace (snd (Route.ask_question w data st))
    = trace st
      ++ Generate 0 {| api_key := k; model_name := "gemini-1.5-flash" |}
           (Route.question_prompt (Route.text summary) (Route.text question)) :: tail.
Proof.
  intros Hq Hs Hno Hg Hin. unfold cursor_in_range in Hin.
  destruct (PyFacts.index_in_range (API_KEYS w) _ Hin) as [k Hk].
  assert (Hc : create_gemini_model w st
               = inr {| api_key := k; model_name := "gemini-1.5-flash" |}).
  { unfold create_gemini_model.
    replace (current_api_key_index st <? Py.llen (API_KEYS w)) with true
      by (symmetry; apply Z.ltb_lt; lia).
    rewrite Hk. destruct (getenv (environ w) "GEMINI_API_KEY") as [o|].
    - cbn in Hno. rewrite Hno. now rewrite Hg.
    - now rewrite Hg. }
  unfold Route.ask_question. rewrite Hq, Hs, Hc.
  unfold generate_summary_with_retry. rewrite range_MAX_RETRIES.
  destruct (for_attempts_first_call w
              (Route.question_prompt (Route.text summary) (Route.text question)) 0 [1; 2]
              {| api_key := k; model_name := "gemini-1.5-flash" |} st) as [tail Ht].
  exists k, tail. split; [exact Hk|].
  destruct (for_attempts w _ _ _ st) as [answer st2]. exact Ht.
Qed.

End AcrossRequests.

Lemma routes_keep_cursor_in_range_witness :
  let W := Scenario.with_transcripts (fun _ => Raises Scenario.quota_message) in
  let ST := snd (Route.summarize W
                   [("video_url", Route.Str "https://youtu.be/dQw4w9WgXcQ")]
                   initial_state) in
  cursor_in_range W ST /\ current_api_key_index ST = 1.
Proof.
  intros W ST.
  assert (H0 : cursor_in_range W initial_state)
    by (vm_compute; split; [discriminate | reflexivity]).
  destruct (routes_keep_cursor_in_range W Scenario.plain_catalog
              [("video_url", Route.Str "https://youtu.be/dQw4w9WgXcQ")] initial_state H0)
    as ((Hin & _) & _).
  split; [exact Hin | reflexivity].
Defined.

Lemma request_starts_at_cursor_witness :
  let W := Scenario.always_rate_limited 3 in
  let ST := snd (attempt_body W "p" 0 Scenario.first_model initial_state) in
  exists tail,
    trace (snd (Route.ask_question W [("question", Route.Str "Why?");
                                      ("summary", Route.Str "A talk.")] ST))
    = (trace ST
       ++ Generate 0 Scenario.second_model (Route.question_prompt "A talk." "Why?")
            :: tail)%list.
Proof.
  intros W ST.
  destruct (request_starts_at_cursor W
              [("question", Route.Str "Why?"); ("summary", Route.Str "A talk.")] ST
              (Route.Str "Why?") (Route.Str "A talk.") eq_refl eq_refl eq_refl)
    as (k & tail & Hk & Ht).
  - intros k. reflexivity.
  - vm_compute. split; [discriminate | reflexivity].
  - vm_compute in Hk. injection Hk as <-. exists tail. exact Ht.
Defined.
